(** * chrlogin: a setuid-root login shim that enters a chroot jail

    A shallow embedding of [chrlogin.c] and the properties of its
    privilege-transition pipeline.

    The program is one straight-line [main].  It is embedded as a
    computation in a small state-and-exit monad over
    - the process state the kernel keeps (uids, filesystem root, working
      directory),
    - the environment vectors ([envp] of [main] and libc's [environ]),
    - the chronological trace of the library and system calls made.
    The operating system is an oracle ([world]) that answers each call from
    the process state in force when the call is made.

    The three automatic [char] arrays of [main] are modelled as byte
    buffers, and the libc string functions as the byte writes they make,
    so that the bounded copies of the source are part of the model.
    Three stores of [main] can fall on the byte that follows an array
    (lines 101, 136 and 192).  What that byte is depends on how the frame
    is laid out; the model follows the build the header of the source
    prescribes ([gcc -O2]), which puts [home_dir], [shell] and
    [chroot_dir] one right after the other in this order.  Statements
    that name what [chdir] and [chroot] receive, or what follows from
    it, are made for jail roots whose shell path fits the array, where
    no store leaves an array that is read again and no layout matters. *)

From Stdlib Require Import ZArith List String Ascii Bool Lia.
From Stdlib Require Import DecimalString.
Import ListNotations.
Local Open Scope string_scope.
Local Open Scope list_scope.
Local Open Scope Z_scope.

(** ** Configuration parameters (lines 31-48, 61) *)

Definition SHELL : string := "/bin/bash".
Definition CHROOT_LEVEL : Z := 2.
Definition MAX_STRING : nat := 1024.

(** ** Characters and C strings

    A [string] stands for the characters of a NUL-terminated C string,
    terminator excluded; such a string holds no NUL itself ([c_string]). *)

Definition nul : ascii := "000"%char.
Definition slash : ascii := "/"%char.
Definition newline : string := String "010"%char EmptyString.

Definition chars (s : string) : list ascii := list_ascii_of_string s.
Definition text (l : list ascii) : string := string_of_list_ascii l.

Definition c_string (s : string) : Prop := ~ In nul (chars s).

(** ** Byte buffers

    [char a[MAX_STRING]] is modelled as [MAX_STRING + 1] cells: the array
    and the byte that follows it in the frame.  The source stores to
    [chroot_dir[MAX_STRING]] (line 101), and its [strncat] calls may put
    their terminator at that same index; the extra cell is where these
    stores land.  A store past the extra cell is dropped.

    The byte that follows an array belongs to something else.  In the
    frame of the prescribed build
    - the byte after [chroot_dir] is padding, which nothing reads but the
      walk of line 116;
    - the byte after [shell] is [chroot_dir[0]]: a store there changes
      [chroot_dir], and [main] below carries it over ([after_shell]);
    - the byte after [home_dir] is [shell[0]], and [shell] is no longer
      read when line 192 stores there. *)

Definition buffer := list ascii.

Definition frame_size : nat := S MAX_STRING.

(** An automatic array starts with whatever the stack holds. *)
Definition auto_array (junk : nat -> ascii) : buffer :=
  map junk (seq 0 frame_size).

(** [write_at buf i data]: store the bytes [data] at [buf[i..]]. *)
Definition write_at (buf : buffer) (i : nat) (data : list ascii) : buffer :=
  firstn (List.length buf)
    (firstn i buf ++ data ++ skipn (i + List.length data) buf).

(** [strlen]: number of bytes before the first NUL; a buffer without one
    is read to its end. *)
Fixpoint strlen (buf : list ascii) : nat :=
  match buf with
  | [] => 0%nat
  | c :: rest => if Ascii.eqb c nul then 0%nat else S (strlen rest)
  end.

(** The C string held at the start of a buffer. *)
Definition cstr (buf : buffer) : string := text (firstn (strlen buf) buf).

(** [strncpy(dst, src, n)] writes exactly [n] bytes: the characters of
    [src], cut at [n], padded with NULs up to [n]. *)
Definition strncpy (dst : buffer) (src : string) (n : nat) : buffer :=
  write_at dst 0 (firstn n (chars src ++ repeat nul n)).

(** [strcpy(dst, src)] writes [src] and its terminator. *)
Definition strcpy (dst : buffer) (src : string) : buffer :=
  write_at dst 0 (chars src ++ [nul]).

(** [strncat(dst, src, n)] appends at most [n] characters of [src] at the
    terminator of [dst], and then always a NUL: up to [n + 1] bytes. *)
Definition strncat (dst : buffer) (src : string) (n : nat) : buffer :=
  write_at dst (strlen dst) (firstn n (chars src) ++ [nul]).

(** The index at which [strncat(dst, src, n)] stores its terminator. *)
Definition strncat_end (dst : buffer) (src : string) (n : nat) : nat :=
  (strlen dst + Nat.min n (String.length src))%nat.

(** ** The separator walk (lines 116-123)

<<
  for (p = chroot_dir, cnt = -1; p[0]; p++) {
    if (p[0] == '/') cnt++;
    if (cnt == CHROOT_LEVEL) { p[0] = 0; break; }
  }
>>
    [walk level rest p cnt] scans the bytes [rest] found at offset [p];
    it returns the offset to overwrite with NUL, if the loop breaks, and
    the final count. *)

Fixpoint walk (level : Z) (rest : list ascii) (p : nat) (cnt : Z)
  : option nat * Z :=
  match rest with
  | [] => (None, cnt)
  | c :: rest' =>
      if Ascii.eqb c nul then (None, cnt)
      else
        let cnt' := if Ascii.eqb c slash then cnt + 1 else cnt in
        if cnt' =? level then (Some p, cnt')
        else walk level rest' (S p) cnt'
  end.

(** The loop with its store: the buffer after the loop, and [cnt]. *)
Definition extract_chroot_dir (level : Z) (chroot_dir : buffer) : buffer * Z :=
  match walk level chroot_dir 0 (-1) with
  | (Some p, cnt) => (write_at chroot_dir p [nul], cnt)
  | (None, cnt) => (chroot_dir, cnt)
  end.

(** Lines 100-101: the bounded copy of the outer home path and the store
    of the sentinel. *)
Definition copy_home (junk : nat -> ascii) (pw_dir : string) : buffer :=
  write_at (strncpy (auto_array junk) pw_dir (MAX_STRING - 1)) MAX_STRING [nul].

(** ** Integers of the source

    [real_user] is an [int] holding a [uid_t]; [exit] keeps the low eight
    bits of its argument; [strncat]'s bound is a [size_t] difference. *)

Definition int_of_uid (u : Z) : Z := (u + 2 ^ 31) mod 2 ^ 32 - 2 ^ 31.
Definition uid_of_int (i : Z) : Z := i mod 2 ^ 32.
Definition uid_t (u : Z) : Prop := 0 <= u < 2 ^ 32.

Definition exit_status (n : Z) : Z := Z.land n 255.

Definition size_sub (a b : nat) : nat :=
  Z.to_nat ((Z.of_nat a - Z.of_nat b) mod 2 ^ 64).

(** [%d] of [fprintf]. *)
Definition decimal (n : Z) : string := NilZero.string_of_int (Z.to_int n).

(** [S_ISREG(m)], that is [(m & S_IFMT) == S_IFREG]. *)
Definition S_IFMT : Z := 61440.    (* 0170000 *)
Definition S_IFREG : Z := 32768.   (* 0100000 *)
Definition S_ISREG (st_mode : Z) : bool := Z.land st_mode S_IFMT =? S_IFREG.

(** ** The operating system *)

(** The fields of [struct passwd] the program reads. *)
Record passwd := mkpasswd {
  pw_uid : Z;
  pw_dir : string;
  pw_shell : string
}.

(** What the kernel keeps for the process. *)
Record proc := mkproc {
  p_ruid : Z;
  p_euid : Z;
  p_root : string;
  p_cwd : string
}.

Inductive stat_result :=
| StatFail (strerror : string)
| StatOk (st_mode : Z).

Inductive sys_result :=
| SysOk
| SysFail (strerror : string).

(** The invocation, the stack the arrays are carved from, and the answers
    of the system.  Every answer may depend on the process state at the
    time of the call: the password database and the filesystem are those
    under [p_root], seen with the uids in force.

    [argv] is [w_argv0 :: w_args]: the invoker passes at least the name of
    the program.  [w_junk k] is what the stack holds where array number
    [k] is placed ([home_dir] 0, [shell] 1, [chroot_dir] 2).  [w_stat]
    answers with [strerror(errno)] or with [st_mode]; [w_chdir] and
    [w_chroot] with success or [strerror(errno)]. *)
Record world := mkworld {
  w_ruid : Z;
  w_euid : Z;
  w_cwd : string;
  w_argv0 : string;
  w_args : list string;
  w_envp : list string;
  w_junk : nat -> nat -> ascii;
  w_getpwuid : proc -> Z -> option passwd;
  w_stat : proc -> string -> stat_result;
  w_chdir : proc -> string -> sys_result;
  w_chroot : proc -> string -> sys_result;
  w_setuid : proc -> Z -> bool;
  w_execve : proc -> string -> list string -> list string -> bool
}.

(** Calls observed, in program order. *)
Inductive event :=
| Getuid
| Geteuid
| Getpwuid (uid : Z)
| Stat (path : string)
| Chdir (path : string)
| Chroot (path : string)
| Setuid (uid : Z)
| Putenv (entry : string)
| Execve (path : string) (argv envp : list string)
| Fprintf (message : string).

(** ** Environment vectors

    A vector of [char*] entries lives at an address; [envp] of [main] is
    the address of the inherited vector, and libc's [environ] starts equal
    to it.  [putenv] follows libc (glibc [__add_to_environ], musl
    [__putenv]): an entry of the same name is overwritten in place, in the
    vector [environ] points to; otherwise a new, longer vector is
    allocated and [environ] is moved to it, the old vector staying as it
    was. *)

Definition vector := list string.
Definition address := nat.

Record state := mkstate {
  st_proc : proc;
  st_vectors : list vector;
  st_environ : address;
  st_trace : list event
}.

Definition envp : address := 0%nat.

Definition load (vs : list vector) (a : address) : vector := nth a vs [].

Fixpoint store {A : Type} (l : list A) (i : nat) (x : A) : list A :=
  match l, i with
  | [], _ => []
  | _ :: t, O => x :: t
  | h :: t, S j => h :: store t j x
  end.

(** The name of an entry: the characters before its first [=]. *)
Fixpoint env_name (entry : string) : string :=
  match entry with
  | EmptyString => EmptyString
  | String c rest =>
      if Ascii.eqb c "="%char then EmptyString else String c (env_name rest)
  end.

Definition has_equals (entry : string) : bool :=
  existsb (Ascii.eqb "="%char) (chars entry).

(** [!strncmp( *ep, name, namelen) && ( *ep)[namelen] == '='] *)
Fixpoint starts_with (p s : string) : bool :=
  match p, s with
  | EmptyString, _ => true
  | String a p', String b s' => Ascii.eqb a b && starts_with p' s'
  | String _ _, EmptyString => false
  end.

Definition names (name entry : string) : bool :=
  starts_with (String.append name "=") entry.

Fixpoint find_entry (name : string) (v : vector) : option nat :=
  match v with
  | [] => None
  | e :: rest =>
      if names name e then Some 0%nat
      else option_map S (find_entry name rest)
  end.

Definition getenv_in (v : vector) (name : string) : option string :=
  match find (names name) v with
  | Some e =>
      Some (substring (S (String.length name))
              (String.length e - S (String.length name)) e)
  | None => None
  end.

(** ** The monad: state, and [exit] or a successful [execve] as the end *)

Inductive outcome :=
| Exit (status : Z)
| Exec (path : string) (argv : list string) (envp : vector).

Inductive result (A : Type) :=
| Ret (a : A)
| Halt (o : outcome).
Arguments Ret {A} a.
Arguments Halt {A} o.

Definition M (A : Type) : Type := state -> result A * state.

Definition ret {A} (a : A) : M A := fun s => (Ret a, s).

Definition bind {A B} (m : M A) (k : A -> M B) : M B :=
  fun s =>
    match m s with
    | (Ret a, s') => k a s'
    | (Halt o, s') => (Halt o, s')
    end.

Notation "x <- m ;; k" := (bind m (fun x => k))
  (at level 61, m at next level, right associativity).
Notation "m ;; k" := (bind m (fun _ => k))
  (at level 61, right associativity).

Definition when (b : bool) (m : M unit) : M unit :=
  if b then m else ret tt.

Definition or_else {A} (o : option A) (handler : M A) : M A :=
  match o with
  | Some a => ret a
  | None => handler
  end.

Definition emit (e : event) : M unit :=
  fun s => (Ret tt, mkstate (st_proc s) (st_vectors s) (st_environ s)
                       (st_trace s ++ [e])).

Definition set_proc (p : proc) : M unit :=
  fun s => (Ret tt, mkstate p (st_vectors s) (st_environ s) (st_trace s)).

Definition get_proc : M proc := fun s => (Ret (st_proc s), s).

(** ** Library and system calls *)

Definition exit {A} (n : Z) : M A := fun s => (Halt (Exit (exit_status n)), s).

Definition fprintf_stderr (message : string) : M unit := emit (Fprintf message).

Definition getuid : M Z := emit Getuid ;; p <- get_proc ;; ret (p_ruid p).

Definition geteuid : M Z := emit Geteuid ;; p <- get_proc ;; ret (p_euid p).

Definition getpwuid (w : world) (uid : Z) : M (option passwd) :=
  emit (Getpwuid uid) ;; p <- get_proc ;; ret (w_getpwuid w p uid).

Definition stat (w : world) (path : string) : M stat_result :=
  emit (Stat path) ;; p <- get_proc ;; ret (w_stat w p path).

Definition chdir (w : world) (path : string) : M sys_result :=
  emit (Chdir path) ;;
  p <- get_proc ;;
  match w_chdir w p path with
  | SysOk => set_proc (mkproc (p_ruid p) (p_euid p) (p_root p) path) ;; ret SysOk
  | SysFail e => ret (SysFail e)
  end.

Definition chroot (w : world) (path : string) : M sys_result :=
  emit (Chroot path) ;;
  p <- get_proc ;;
  match w_chroot w p path with
  | SysOk => set_proc (mkproc (p_ruid p) (p_euid p) path (p_cwd p)) ;; ret SysOk
  | SysFail e => ret (SysFail e)
  end.

(** [setuid(uid)]: a process with effective uid 0 has all its uids set;
    any other only its effective uid.  Returns 0, or -1 on failure. *)
Definition setuid (w : world) (uid : Z) : M Z :=
  emit (Setuid uid) ;;
  p <- get_proc ;;
  if w_setuid w p uid then
    set_proc (mkproc (if p_euid p =? 0 then uid else p_ruid p) uid
                (p_root p) (p_cwd p)) ;;
    ret 0
  else ret (-1).

(** [putenv(entry)]: see above; an [entry] without [=] names a variable
    to remove. *)
Definition putenv (entry : string) : M Z :=
  emit (Putenv entry) ;;
  fun s =>
    let cur := load (st_vectors s) (st_environ s) in
    if has_equals entry then
      match find_entry (env_name entry) cur with
      | Some i =>
          (Ret 0, mkstate (st_proc s)
                    (store (st_vectors s) (st_environ s) (store cur i entry))
                    (st_environ s) (st_trace s))
      | None =>
          (Ret 0, mkstate (st_proc s)
                    (st_vectors s ++ [cur ++ [entry]])
                    (List.length (st_vectors s)) (st_trace s))
      end
    else
      (Ret 0, mkstate (st_proc s)
                (store (st_vectors s) (st_environ s)
                   (filter (fun e => negb (names entry e)) cur))
                (st_environ s) (st_trace s)).

(** [execve(path, argv, env)] with [env] the address of a vector: on
    success the image is replaced and nothing follows; on failure it
    returns -1. *)
Definition execve (w : world) (path : string) (argv : list string)
    (env : address) : M Z :=
  fun s =>
    let v := load (st_vectors s) env in
    let s' := mkstate (st_proc s) (st_vectors s) (st_environ s)
                (st_trace s ++ [Execve path argv v]) in
    if w_execve w (st_proc s) path argv v
    then (Halt (Exec path argv v), s')
    else (Ret (-1), s').

(** ** Diagnostics: the format strings of the source, instantiated *)

Definition fmt (parts : list string) : string := String.concat "" parts.

Definition msg_not_setuid (argv0 : string) : string :=
  fmt [argv0; ": This program needs to be setuid root."; newline].

Definition msg_root_user (argv0 : string) : string :=
  fmt [argv0; ": The target user must not be root."; newline].

Definition msg_no_user (argv0 : string) (real_user : Z) : string :=
  fmt [argv0; ": User #"; decimal real_user;
       " does not exit in /etc/passwd."; newline].

Definition msg_not_absolute (argv0 dir : string) : string :=
  fmt [argv0; ": Home directory "; dir; " does not begin with '/'."; newline].

Definition msg_no_home (argv0 dir err : string) : string :=
  fmt [argv0; ": Home directory "; dir; " does not exist:"; newline;
       err; newline].

Definition msg_too_short (argv0 dir : string) (level : Z) : string :=
  fmt [argv0; ": Home directory "; dir;
       " is too short to reach chroot shell level "; decimal level; ".";
       newline].

Definition msg_no_shell (argv0 shell err : string) : string :=
  fmt [argv0; ": Could not access login shell "; shell; ":"; newline;
       err; newline].

Definition msg_shell_not_regular (argv0 shell : string) : string :=
  fmt [argv0; ": Login shell "; shell; " must be a regular file."; newline].

Definition msg_chdir_root (argv0 dir err : string) : string :=
  fmt [argv0; ": Could not chdir() to new root directory "; dir; ":";
       newline; err; newline].

Definition msg_chroot (argv0 dir err : string) : string :=
  fmt [argv0; ": Could not chroot() to new root directory "; dir; ":";
       newline; err; newline].

Definition msg_no_jail_user (argv0 : string) (real_user : Z) : string :=
  fmt [argv0; ": Could not find user #"; decimal real_user;
       " in chroot's /etc/passwd."; newline].

Definition msg_chdir_home (argv0 dir : string) (real_user : Z) (err : string)
  : string :=
  fmt [argv0; ": Could not chdir to new home directory "; dir;
       " for user #"; decimal real_user; ":"; newline; err; newline].

(** ** The buffers [main] builds *)

(** Lines 135-136: [shell] is the jail root followed by [SHELL], as far as
    the bounded copy and the bounded append let it be.  The last cell is
    the byte after the array; what a store there does to [chroot_dir] is
    [after_shell] below. *)
Definition shell_buffer (junk : nat -> ascii) (chroot_dir : buffer) : buffer :=
  let shell := strncpy (auto_array junk) (cstr chroot_dir) MAX_STRING in
  strncat shell SHELL (size_sub MAX_STRING (strlen shell)).

(** Line 136 as it acts on [chroot_dir].  When the terminator of the
    [strncat] stays inside [shell], [chroot_dir] is as it was.  When it
    falls on the byte after [shell], that byte is [chroot_dir[0]]: the
    terminator is stored there, and [chroot_dir] holds the empty string
    from then on. *)
Definition after_shell (junk : nat -> ascii) (chroot_dir : buffer) : buffer :=
  let shell := strncpy (auto_array junk) (cstr chroot_dir) MAX_STRING in
  let n := size_sub MAX_STRING (strlen shell) in
  if (strncat_end shell SHELL n <? MAX_STRING)%nat then chroot_dir
  else write_at chroot_dir 0 [nth MAX_STRING (strncat shell SHELL n) nul].

(** Lines 191-192: [home_dir] is the entry handed to [putenv]. *)
Definition home_buffer (junk : nat -> ascii) (dir : string) : buffer :=
  let home_dir := strcpy (auto_array junk) "HOME=" in
  strncat home_dir dir (size_sub MAX_STRING (strlen home_dir)).

(** ** Jail-root derivation (lines 116-130)

    The walk, then the test of the count it ends with.  The level is the
    constant [CHROOT_LEVEL] in [main]; it is a parameter here. *)

Definition jail_root (w : world) (level : Z) (chroot_dir : buffer) : M buffer :=
  let (chroot_dir, cnt) := extract_chroot_dir level chroot_dir in
  when (cnt <? level)
    (fprintf_stderr (msg_too_short (w_argv0 w) (cstr chroot_dir) level) ;;
     exit (-1)) ;;
  ret chroot_dir.

(** ** [main] (lines 64-199) *)

Definition main (w : world) : M Z :=
  let argv0 := w_argv0 w in
  uid <- getuid ;;
  let real_user := int_of_uid uid in
  (* sanity checks *)
  euid <- geteuid ;;
  when (negb (euid =? 0))
    (fprintf_stderr (msg_not_setuid argv0) ;; exit (-1)) ;;
  when (real_user =? 0)
    (fprintf_stderr (msg_root_user argv0) ;; exit (-1)) ;;
  (* look up user in system's /etc/passwd *)
  found <- getpwuid w (uid_of_int real_user) ;;
  pw_ent <- or_else found
    (fprintf_stderr (msg_no_user argv0 real_user) ;; exit (-1)) ;;
  (* check home directory *)
  let chroot_dir := copy_home (w_junk w 2) (pw_dir pw_ent) in
  when (negb (Ascii.eqb (nth 0 chroot_dir nul) slash))
    (fprintf_stderr (msg_not_absolute argv0 (cstr chroot_dir))) ;;
  home_stat <- stat w (cstr chroot_dir) ;;
  match home_stat with
  | StatFail err => fprintf_stderr (msg_no_home argv0 (cstr chroot_dir) err)
  | StatOk _ => ret tt
  end ;;
  (* extract chroot directory *)
  chroot_dir <- jail_root w CHROOT_LEVEL chroot_dir ;;
  (* check existance of SHELL *)
  let shell := shell_buffer (w_junk w 1) chroot_dir in
  let chroot_dir := after_shell (w_junk w 1) chroot_dir in
  shell_stat <- stat w (cstr shell) ;;
  match shell_stat with
  | StatFail err =>
      fprintf_stderr (msg_no_shell argv0 (cstr shell) err) ;; exit (-1)
  | StatOk st_mode =>
      when (negb (S_ISREG st_mode))
        (fprintf_stderr (msg_shell_not_regular argv0 (cstr shell)) ;;
         exit (-1))
  end ;;
  (* enter chroot environment *)
  moved <- chdir w (cstr chroot_dir) ;;
  match moved with
  | SysFail err =>
      fprintf_stderr (msg_chdir_root argv0 (cstr chroot_dir) err) ;; exit (-1)
  | SysOk => ret tt
  end ;;
  rooted <- chroot w (cstr chroot_dir) ;;
  match rooted with
  | SysFail err =>
      fprintf_stderr (msg_chroot argv0 (cstr chroot_dir) err) ;; exit (-1)
  | SysOk => ret tt
  end ;;
  setuid w (uid_of_int real_user) ;;
  (* look up user in chroot's /etc/passwd *)
  found <- getpwuid w (uid_of_int real_user) ;;
  pw_ent <- or_else found
    (fprintf_stderr (msg_no_jail_user argv0 real_user) ;; exit (-1)) ;;
  (* change to users home directory *)
  moved <- chdir w (pw_dir pw_ent) ;;
  match moved with
  | SysFail err =>
      fprintf_stderr (msg_chdir_home argv0 (pw_dir pw_ent) real_user err) ;;
      exit (-1)
  | SysOk => ret tt
  end ;;
  (* adapt command name *)
  let argv := pw_shell pw_ent :: w_args w in
  (* adapt HOME environment variable *)
  let home_dir := home_buffer (w_junk w 0) (pw_dir pw_ent) in
  putenv (cstr home_dir) ;;
  (* execute shell *)
  execve w SHELL argv envp ;;
  ret 0.

(** The process as started by the invoker, and a whole run: the calls
    made, and how the process ended ([return n] from [main] is
    [exit(n)]). *)

Definition initial (w : world) : state :=
  mkstate (mkproc (w_ruid w) (w_euid w) "/" (w_cwd w)) [w_envp w] envp [].

Definition run (w : world) : list event * outcome :=
  match main w (initial w) with
  | (Ret n, s) => (st_trace s, Exit (exit_status n))
  | (Halt o, s) => (st_trace s, o)
  end.

Definition trace (w : world) : list event := fst (run w).
Definition ending (w : world) : outcome := snd (run w).

(** ** Vocabulary of the specification *)

(** Separators in a run of bytes, and in a path. *)
Fixpoint count_sep (l : list ascii) : nat :=
  match l with
  | [] => 0%nat
  | c :: rest => if Ascii.eqb c slash then S (count_sep rest) else count_sep rest
  end.

Definition separators (path : string) : nat := count_sep (chars path).

(** The offset of separator number [k], the first one being number 0:
    [S(P)[k]] of the specification's data model. *)
Fixpoint nth_sep (k : nat) (l : list ascii) : option nat :=
  match l with
  | [] => None
  | c :: rest =>
      if Ascii.eqb c slash then
        match k with
        | O => Some 0%nat
        | S k' => option_map S (nth_sep k' rest)
        end
      else option_map S (nth_sep k rest)
  end.

Definition absolute (path : string) : Prop :=
  exists rest, path = String slash rest.

(** Separators after the first character: for an absolute path, the
    interior separators after the leading root. *)
Definition interior_separators (path : string) : nat :=
  count_sep (tl (chars path)).

Definition is_prefix (r path : string) : Prop :=
  exists rest, path = (r ++ rest)%string.

(** [r] is the longest prefix of [path] that holds exactly [n] separators,
    as counted by [count]. *)
Definition longest_prefix (count : string -> nat) (n : nat) (path r : string)
  : Prop :=
  is_prefix r path /\ count r = n /\
  forall r', is_prefix r' path -> count r' = n ->
             (String.length r' <= String.length r)%nat.

(** The jail root [main] derives from an outer home path, if it gets past
    line 130. *)
Definition derived_root (w : world) (level : Z) (home : string)
  : option string :=
  match jail_root w level (copy_home (w_junk w 2) home) (initial w) with
  | (Ret chroot_dir, _) => Some (cstr chroot_dir)
  | (Halt _, _) => None
  end.

(** The outer home path cut to what line 100 copies. *)
Definition cut_home (home : string) : string :=
  text (firstn (MAX_STRING - 1) (chars home)).


(** ** Landmarks of a run *)

(** [real_user], the [int] of line 66, and the uid handed back to the
    system calls. *)
Definition real_user (w : world) : Z := int_of_uid (w_ruid w).
Definition target_uid (w : world) : Z := uid_of_int (real_user w).

(** The process at start, and after each step of the jail entry. *)
Definition proc0 (w : world) : proc :=
  mkproc (w_ruid w) (w_euid w) "/" (w_cwd w).

Definition moved_to (p : proc) (dir : string) : proc :=
  mkproc (p_ruid p) (p_euid p) (p_root p) dir.

Definition rooted_at (p : proc) (dir : string) : proc :=
  mkproc (p_ruid p) (p_euid p) dir (p_cwd p).

Definition after_setuid (w : world) (p : proc) (uid : Z) : proc :=
  if w_setuid w p uid
  then mkproc (if p_euid p =? 0 then uid else p_ruid p) uid (p_root p) (p_cwd p)
  else p.

(** The process once lines 152-164 are done with jail root [jail]. *)
Definition jailed (w : world) (jail : string) : proc :=
  after_setuid w (rooted_at (moved_to (proc0 w) jail) jail) (target_uid w).

(** The record of the host database (line 91) and, for a jail root, the
    record of the jail's database (line 169). *)
Definition outer_record (w : world) : option passwd :=
  w_getpwuid w (proc0 w) (target_uid w).

Definition inner_record (w : world) (jail : string) : option passwd :=
  w_getpwuid w (jailed w jail) (target_uid w).

(** The jail root and [SHELL] fit [shell] with their terminator: the
    stores of lines 135-136 stay inside the array. *)
Definition shell_fits (jail : string) : Prop :=
  (String.length jail + String.length SHELL < MAX_STRING)%nat.

(** The path lines 152 and 158 hand to [chdir] and [chroot]: what
    [chroot_dir] holds once line 136 is done. *)
Definition jail_path (w : world) (chroot_dir : buffer) : string :=
  cstr (after_shell (w_junk w 1) chroot_dir).

(** The path line 138 hands to [stat], for a jail root as left in
    [chroot_dir]. *)
Definition shell_path (w : world) (chroot_dir : buffer) : string :=
  cstr (shell_buffer (w_junk w 1) chroot_dir).

(** The entry line 193 hands to [putenv]. *)
Definition home_entry (w : world) (dir : string) : string :=
  cstr (home_buffer (w_junk w 0) dir).

(** The vector at [envp] once [putenv entry] has run on the inherited
    environment. *)
Definition envp_after_putenv (v : vector) (entry : string) : vector :=
  if has_equals entry then
    match find_entry (env_name entry) v with
    | Some i => store v i entry
    | None => v
    end
  else filter (fun e => negb (names entry e)) v.

(** Calls that change the process: what must not happen before the jail
    is entered, nor twice. *)
Definition transition (e : event) : bool :=
  match e with
  | Chdir _ | Chroot _ | Setuid _ | Putenv _ | Execve _ _ _ => true
  | _ => false
  end.

Definition jail_call (e : event) : bool :=
  match e with
  | Chroot _ | Setuid _ | Execve _ _ _ => true
  | _ => false
  end.

(** What comes right after the first call that [pick] selects, if there
    is such a call. *)
Fixpoint followed_by (pick : event -> bool) (tr : list event)
  : option (option event) :=
  match tr with
  | [] => None
  | e :: rest =>
      if pick e then Some (hd_error rest) else followed_by pick rest
  end.

Definition is_stat_of (path : string) (e : event) : bool :=
  match e with
  | Stat p => String.eqb p path
  | _ => false
  end.

Definition is_setuid (e : event) : bool :=
  match e with
  | Setuid _ => true
  | _ => false
  end.

(** The calls of lines 66-111 for an outer record: the uid queries, the
    lookup, and the two checks of the home directory with the diagnostics
    they may print. *)
Definition home_checks (w : world) (pw_ent : passwd) : list event :=
  let chroot_dir := copy_home (w_junk w 2) (pw_dir pw_ent) in
  [Getuid; Geteuid; Getpwuid (target_uid w)]
  ++ (if Ascii.eqb (nth 0 chroot_dir nul) slash then []
      else [Fprintf (msg_not_absolute (w_argv0 w) (cstr chroot_dir))])
  ++ [Stat (cstr chroot_dir)]
  ++ match w_stat w (proc0 w) (cstr chroot_dir) with
     | StatFail err =>
         [Fprintf (msg_no_home (w_argv0 w) (cstr chroot_dir) err)]
     | StatOk _ => []
     end.


(** ** Invocations used as examples *)

(** The login program starts the setuid-root binary for uid 1000; [chdir]
    and [chroot] succeed. *)
Definition login (envp : vector) (passwd_db : proc -> Z -> option passwd)
    (stat_of : proc -> string -> stat_result) (setuid_ok exec_ok : bool)
  : world :=
  mkworld 1000 0 "/" "-chrlogin" [] envp (fun _ _ => "x"%char)
    passwd_db stat_of
    (fun _ _ => SysOk) (fun _ _ => SysOk) (fun _ _ => setuid_ok)
    (fun _ _ _ _ => exec_ok).

(** The installation the header comment of the source describes: the jail
    is [/home/chroot], user joe has uid 1000. *)
Definition joe_host : passwd :=
  mkpasswd 1000 "/home/chroot/home/joe" "/usr/local/sbin/chrlogin".
Definition joe_jail : passwd := mkpasswd 1000 "/home/joe" "/bin/bash".

Definition joe_passwd (p : proc) (uid : Z) : option passwd :=
  if uid =? 1000 then
    if String.eqb (p_root p) "/" then Some joe_host
    else if String.eqb (p_root p) "/home/chroot" then Some joe_jail
    else None
  else None.

(** Host filesystem: a directory, the jail's shell (mode 0100755). *)
Definition joe_stat (p : proc) (path : string) : stat_result :=
  if String.eqb path "/home/chroot/bin/bash" then StatOk 33261
  else if String.eqb path "/home/chroot/home/joe" then StatOk 16877
  else StatFail "No such file or directory".

Definition joe_login : world :=
  login ["HOME=/home/chroot/home/joe"; "PATH=/bin"] joe_passwd joe_stat
    true true.

(** A host database and a jail database that is found under any root
    other than [/]. *)
Definition two_databases (host jail : passwd) (p : proc) (uid : Z)
  : option passwd :=
  if uid =? 1000 then
    if String.eqb (p_root p) "/" then Some host else Some jail
  else None.

Definition all_regular (p : proc) (path : string) : stat_result := StatOk 33261.

(** [setuid] fails, as it does with [EAGAIN] when the target user is at
    its process limit. *)
Definition setuid_fails : world :=
  login ["HOME=/home/chroot/home/joe"; "PATH=/bin"] joe_passwd joe_stat
    false true.

(** [execve] fails, as it does with [EACCES] when the jail's shell is a
    regular file without execute permission. *)
Definition exec_fails : world :=
  login ["HOME=/home/chroot/home/joe"; "PATH=/bin"] joe_passwd joe_stat
    true false.

(** The invoker passes no [HOME]. *)
Definition no_home_inherited : world :=
  login ["PATH=/bin"] joe_passwd joe_stat true true.

Definition long_name (c : ascii) (n : nat) : string := text (repeat c n).

(** An inner home of 1280 characters, five components of 255. *)
Definition deep_home : string :=
  String.concat ""
    (repeat (String slash (long_name "d"%char 255)) 5).

Definition deep_inner_home : world :=
  login ["HOME=/home/chroot/home/joe"; "PATH=/bin"]
    (two_databases joe_host (mkpasswd 1000 deep_home "/bin/bash"))
    all_regular true true.

(** An outer home of 1020 characters whose jail root has 1018. *)
Definition wide_jail : string :=
  (String slash (long_name "a"%char 508)
   ++ String slash (long_name "b"%char 508))%string.

Definition wide_home : string := (wide_jail ++ "/j")%string.

(** No file system holds a name of 508 characters: [stat] fails on every
    path under [wide_jail]. *)
Definition wide_stat (p : proc) (path : string) : stat_result :=
  if starts_with wide_jail path
  then StatFail "File name too long"
  else StatOk 33261.

Definition wide_jail_login : world :=
  login ["HOME=/x"; "PATH=/bin"]
    (two_databases (mkpasswd 1000 wide_home "/usr/local/sbin/chrlogin")
       joe_jail)
    wide_stat true true.

(** A relative outer home. *)
Definition relative_login : world :=
  login ["HOME=/x"; "PATH=/bin"]
    (two_databases
       (mkpasswd 1000 "home/chroot/home/joe" "/usr/local/sbin/chrlogin")
       joe_jail)
    all_regular true true.

(** The claim about the environment of the shell, in the words of the
    specification: the inherited environment with [HOME] set, replaced or
    added, to the inner home path. *)
Definition with_variable (v : vector) (name value : string) : vector :=
  let entry := (name ++ "=" ++ value)%string in
  match find_entry name v with
  | Some i => store v i entry
  | None => v ++ [entry]
  end.

(** The binary is not installed setuid root. *)
Definition not_setuid : world :=
  mkworld 1000 1000 "/" "chrlogin" [] ["HOME=/home/chroot/home/joe"]
    (fun _ _ => "x"%char) joe_passwd joe_stat
    (fun _ _ => SysOk) (fun _ _ => SysOk) (fun _ _ => true)
    (fun _ _ _ _ => true).

(** A home path whose separators, all but the first, lie past what the
    buffer takes. *)
Definition far_separators : string :=
  (String slash (long_name "a"%char 1030) ++ "/b/c")%string.

(** The process a run leaves behind. *)
Definition final_proc (w : world) : proc := st_proc (snd (main w (initial w))).

(** A home path of exactly [MAX_STRING - 1] characters, and a stack that
    holds a [/] where the array was never written. *)
Definition tight_home : string :=
  ("/a/" ++ long_name "b"%char 1020)%string.

Definition stray_slash : world :=
  mkworld 1000 0 "/" "-chrlogin" [] ["HOME=/x"; "PATH=/bin"]
    (fun _ _ => slash)
    (two_databases (mkpasswd 1000 tight_home "/usr/local/sbin/chrlogin")
       joe_jail)
    all_regular
    (fun _ _ => SysOk) (fun _ _ => SysOk) (fun _ _ => true)
    (fun _ _ _ _ => true).


(** ** Vocabulary for whole runs *)

(** The first [n] characters of a string. *)
Definition cut (n : nat) (s : string) : string := text (firstn n (chars s)).

(** The last call of a run. *)
Definition last_call (tr : list event) : option event := hd_error (rev tr).

Definition is_execve (e : event) : bool :=
  match e with
  | Execve _ _ _ => true
  | _ => false
  end.

(** The library and system calls of a trace by name, diagnostics left
    out, and the order in which [main] has them. *)
Inductive call :=
| CallGetuid | CallGeteuid | CallGetpwuid | CallStat | CallChdir
| CallChroot | CallSetuid | CallPutenv | CallExecve.

Definition call_of (e : event) : list call :=
  match e with
  | Getuid => [CallGetuid]
  | Geteuid => [CallGeteuid]
  | Getpwuid _ => [CallGetpwuid]
  | Stat _ => [CallStat]
  | Chdir _ => [CallChdir]
  | Chroot _ => [CallChroot]
  | Setuid _ => [CallSetuid]
  | Putenv _ => [CallPutenv]
  | Execve _ _ _ => [CallExecve]
  | Fprintf _ => []
  end.

Definition calls (tr : list event) : list call := flat_map call_of tr.

Definition schedule : list call :=
  [CallGetuid; CallGeteuid; CallGetpwuid; CallStat; CallStat; CallChdir;
   CallChroot; CallSetuid; CallGetpwuid; CallChdir; CallPutenv; CallExecve].

(** The run gets to line 152: the uids are as they must be, the host
    record [pw] is found, the walk leaves a jail root in [chroot_dir], and
    the path of the shell is a regular file. *)
Definition passes_checks (w : world) (pw : passwd) (chroot_dir : buffer)
  : Prop :=
  w_euid w = 0 /\ real_user w <> 0 /\
  outer_record w = Some pw /\
  (exists cnt,
     extract_chroot_dir CHROOT_LEVEL (copy_home (w_junk w 2) (pw_dir pw))
       = (chroot_dir, cnt) /\
     CHROOT_LEVEL <= cnt) /\
  exists st_mode,
    w_stat w (proc0 w) (shell_path w chroot_dir) = StatOk st_mode /\
    S_ISREG st_mode = true.

(** The calls made by then. *)
Definition checked_calls (w : world) (pw : passwd) (chroot_dir : buffer)
  : list event :=
  home_checks w pw ++ [Stat (shell_path w chroot_dir)].

(** The run gets to line 164: [chdir] and [chroot] to the jail root have
    succeeded. *)
Definition enters_jail (w : world) (pw : passwd) (chroot_dir : buffer)
  : Prop :=
  passes_checks w pw chroot_dir /\
  w_chdir w (proc0 w) (cstr chroot_dir) = SysOk /\
  w_chroot w (moved_to (proc0 w) (cstr chroot_dir)) (cstr chroot_dir) = SysOk.

(** The calls made once line 164 is done. *)
Definition jail_calls (w : world) (pw : passwd) (chroot_dir : buffer)
  : list event :=
  checked_calls w pw chroot_dir ++
  [Chdir (cstr chroot_dir); Chroot (cstr chroot_dir); Setuid (target_uid w);
   Getpwuid (target_uid w)].

(** The process's own environment, the vector [environ] points to, when
    the run is over. *)
Definition final_environ (w : world) : vector :=
  let s := snd (main w (initial w)) in load (st_vectors s) (st_environ s).

(** The permission bits of [st_mode] (07777). *)
Definition S_IALLUGO : Z := 4095.

(** ** More invocations *)

(** A world like [joe_login] in which single calls can be made to fail. *)
Definition joe_with (passwd_db : proc -> Z -> option passwd)
    (stat_of : proc -> string -> stat_result)
    (chdir_of : proc -> string -> sys_result) (chroot_ok : bool) : world :=
  mkworld 1000 0 "/" "-chrlogin" ["-l"]
    ["PATH=/bin"; "HOME=/home/chroot/home/joe"]
    (fun _ _ => "x"%char) passwd_db stat_of chdir_of
    (fun _ _ => if chroot_ok then SysOk else SysFail "Operation not permitted")
    (fun _ _ => true) (fun _ _ _ _ => true).

Definition chdir_ok (p : proc) (path : string) : sys_result := SysOk.

(** The uid has no record on the host. *)
Definition unknown_user : world :=
  joe_with (fun _ _ => None) joe_stat chdir_ok true.

(** The home directory of the host record is missing; the jail is there. *)
Definition home_missing : world :=
  joe_with joe_passwd
    (fun p path =>
       if String.eqb path "/home/chroot/bin/bash" then StatOk 33261
       else StatFail "No such file or directory")
    chdir_ok true.

(** The jail root cannot be entered. *)
Definition jail_closed : world :=
  joe_with joe_passwd joe_stat
    (fun p path =>
       if String.eqb path "/home/chroot" then SysFail "Permission denied"
       else SysOk)
    true.

Definition chroot_refused : world :=
  joe_with joe_passwd joe_stat chdir_ok false.

(** The jail's database has no record of the uid. *)
Definition no_jail_record : world :=
  joe_with
    (fun p uid =>
       if String.eqb (p_root p) "/" then joe_passwd p uid else None)
    joe_stat chdir_ok true.

(** The home directory inside the jail is missing. *)
Definition no_jail_home : world :=
  joe_with joe_passwd joe_stat
    (fun p path =>
       if String.eqb path "/home/joe"
       then SysFail "No such file or directory" else SysOk)
    true.

(** The user's home lies outside any jail: [/home/joe] on the host. *)
Definition short_home : world :=
  joe_with (fun _ _ => Some joe_jail) joe_stat chdir_ok true.

(** The jail has no shell. *)
Definition no_shell : world :=
  joe_with joe_passwd
    (fun p path =>
       if String.eqb path "/home/chroot/home/joe" then StatOk 16877
       else StatFail "No such file or directory")
    chdir_ok true.

(** The path of the shell is a directory (mode 040755). *)
Definition shell_is_directory : world :=
  joe_with joe_passwd (fun _ _ => StatOk 16877) chdir_ok true.

(** The jail's record names another shell than [SHELL]. *)
Definition zsh_user : world :=
  joe_with (two_databases joe_host (mkpasswd 1000 "/home/joe" "/bin/zsh"))
    joe_stat chdir_ok true.

(** Every call succeeds. *)
Definition joe_with_args : world :=
  joe_with joe_passwd joe_stat chdir_ok true.

(** What the walk leaves in [chroot_dir] for joe. *)
Definition joe_chroot_dir : buffer :=
  fst (extract_chroot_dir CHROOT_LEVEL
         (copy_home (fun _ => "x"%char) "/home/chroot/home/joe")).

(** Root starts the program. *)
Definition root_invokes : world :=
  mkworld 0 0 "/root" "chrlogin" [] ["HOME=/root"]
    (fun _ _ => "x"%char) joe_passwd joe_stat
    (fun _ _ => SysOk) (fun _ _ => SysOk) (fun _ _ => true)
    (fun _ _ _ _ => true).

(** The byte that follows an array of [MAX_STRING] in its frame. *)
Definition spill (buf : buffer) : ascii := nth MAX_STRING buf nul.


(** * Properties *)

(** ** Lists of bytes *)

Lemma chars_text (l : list ascii) : chars (text l) = l.
Proof. apply list_ascii_of_string_of_list_ascii. Qed.

Lemma text_chars (s : string) : text (chars s) = s.
Proof. apply string_of_list_ascii_of_string. Qed.

Lemma chars_length (s : string) : List.length (chars s) = String.length s.
Proof. induction s; simpl; congruence. Qed.

Lemma chars_app (a b : string) : chars (a ++ b)%string = chars a ++ chars b.
Proof. induction a; simpl; [reflexivity | now rewrite IHa]. Qed.

Lemma text_app (a b : list ascii) : text (a ++ b) = (text a ++ text b)%string.
Proof. induction a; simpl; [reflexivity | now rewrite IHa]. Qed.

Lemma write_at_length (buf : buffer) (i : nat) (data : list ascii) :
  List.length (write_at buf i data) = List.length buf.
Proof.
  unfold write_at. rewrite length_firstn, !length_app.
  rewrite length_firstn, length_skipn. lia.
Qed.

Lemma write_at_0 (buf : buffer) (data : list ascii) :
  (List.length data <= List.length buf)%nat ->
  write_at buf 0 data = data ++ skipn (List.length data) buf.
Proof.
  intros H. unfold write_at. simpl.
  apply firstn_all2. rewrite length_app, length_skipn. lia.
Qed.

Lemma write_at_cell (buf : buffer) (i : nat) (c : ascii) :
  (i < List.length buf)%nat ->
  write_at buf i [c] = firstn i buf ++ c :: skipn (S i) buf.
Proof.
  intros H. unfold write_at. simpl List.length. rewrite Nat.add_1_r.
  apply firstn_all2.
  rewrite length_app, length_firstn. cbn [List.length]. rewrite length_skipn. lia.
Qed.

Lemma auto_array_length (junk : nat -> ascii) :
  List.length (auto_array junk) = frame_size.
Proof.
  unfold auto_array. now rewrite length_map, length_seq.
Qed.

(** The first NUL ends the string. *)
Lemma strlen_app_nul (l rest : list ascii) :
  ~ In nul l -> strlen (l ++ nul :: rest) = List.length l.
Proof.
  induction l as [|c l IH]; simpl; intros H.
  - reflexivity.
  - destruct (Ascii.eqb_spec c nul) as [->|_].
    + exfalso. apply H. now left.
    + f_equal. apply IH. intros Hin. apply H. now right.
Qed.

Lemma cstr_app_nul (l rest : list ascii) :
  ~ In nul l -> cstr (l ++ nul :: rest) = text l.
Proof.
  intros H. unfold cstr. rewrite strlen_app_nul by assumption.
  now rewrite firstn_app, Nat.sub_diag, firstn_all, firstn_O, app_nil_r.
Qed.

Lemma strlen_le (l : list ascii) : (strlen l <= List.length l)%nat.
Proof.
  induction l as [|c l IH]; simpl; [lia|].
  destruct (Ascii.eqb c nul); lia.
Qed.

Lemma strlen_no_nul (l : list ascii) : ~ In nul (firstn (strlen l) l).
Proof.
  induction l as [|c l IH]; simpl; [tauto|].
  destruct (Ascii.eqb_spec c nul) as [->|Hc]; simpl; [tauto|].
  intros [Heq|Hin]; [now apply Hc | now apply IH].
Qed.

Lemma cstr_c_string (buf : buffer) : c_string (cstr buf).
Proof.
  unfold c_string, cstr. rewrite chars_text. apply strlen_no_nul.
Qed.

(** ** The copy of the outer home path (lines 100-101) *)

Lemma auto_array_nth (junk : nat -> ascii) (n : nat) (d : ascii) :
  (n < frame_size)%nat -> nth n (auto_array junk) d = junk n.
Proof.
  intros H. unfold auto_array.
  rewrite (nth_indep _ d (junk 0%nat)) by now rewrite length_map, length_seq.
  rewrite map_nth, seq_nth by assumption. reflexivity.
Qed.

Lemma firstn_1_skipn {A} (n : nat) (l : list A) (d : A) :
  (n < List.length l)%nat -> firstn 1 (skipn n l) = [nth n l d].
Proof.
  revert l. induction n as [|n IH]; intros [|a l] H; simpl in *; try lia.
  - reflexivity.
  - apply IH. lia.
Qed.

(** A full-width store at 0 and a one-byte store two cells on leave one
    old cell in between. *)
Lemma write_at_pad (buf : buffer) (data : list ascii) (c d : ascii) (n : nat) :
  List.length buf = S (S n) -> List.length data = n ->
  write_at (write_at buf 0 data) (S n) [c] = data ++ [nth n buf d; c].
Proof.
  intros Hb Hd.
  rewrite write_at_cell by (rewrite write_at_length; lia).
  rewrite write_at_0 by lia. rewrite Hd.
  rewrite firstn_app, skipn_app, Hd.
  rewrite (firstn_all2 (n := S n) data) by lia.
  rewrite (skipn_all2 (n := S (S n)) data) by lia.
  replace (S n - n)%nat with 1%nat by lia.
  replace (S (S n) - n)%nat with 2%nat by lia.
  rewrite skipn_skipn, (skipn_all2 (n := (2 + n)%nat)) by lia.
  rewrite (firstn_1_skipn n buf d) by lia.
  simpl. now rewrite <- app_assoc.
Qed.

Lemma firstn_pad_length {A} (n : nat) (l : list A) (x : A) :
  List.length (firstn n (l ++ repeat x n)) = n.
Proof.
  rewrite length_firstn, length_app, repeat_length. lia.
Qed.

Lemma copy_home_eq (junk : nat -> ascii) (home : string) :
  copy_home junk home =
  firstn (MAX_STRING - 1) (chars home ++ repeat nul (MAX_STRING - 1))
    ++ [junk (MAX_STRING - 1)%nat; nul].
Proof.
  unfold copy_home, strncpy.
  rewrite <- (auto_array_nth junk (MAX_STRING - 1) nul)
    by (unfold frame_size, MAX_STRING; lia).
  apply (write_at_pad (auto_array junk) _ nul nul (MAX_STRING - 1)).
  - apply auto_array_length.
  - apply firstn_pad_length.
Qed.

Lemma firstn_of_repeat {A} (m n : nat) (x : A) :
  firstn m (repeat x n) = repeat x (Nat.min m n).
Proof.
  revert n. induction m as [|m IH]; intros [|n]; simpl; try reflexivity.
  now rewrite IH.
Qed.

Lemma firstn_pad_short {A} (n : nat) (l : list A) (x : A) :
  (List.length l < n)%nat ->
  exists k, firstn n (l ++ repeat x n) = l ++ x :: repeat x k.
Proof.
  intros H. exists (n - List.length l - 1)%nat.
  rewrite firstn_app, firstn_all2 by lia. f_equal.
  rewrite firstn_of_repeat.
  replace (Nat.min (n - List.length l) n) with (S (n - List.length l - 1)) by lia.
  reflexivity.
Qed.

Lemma firstn_app_cut {A} (n : nat) (l r : list A) :
  firstn n (l ++ r) = firstn n (firstn n l ++ r).
Proof.
  destruct (Nat.le_gt_cases (List.length l) n) as [H|H].
  - now rewrite (firstn_all2 (n := n) l).
  - rewrite !firstn_app, firstn_firstn, Nat.min_id, length_firstn.
    replace (n - List.length l)%nat with 0%nat by lia.
    replace (n - Nat.min n (List.length l))%nat with 0%nat by lia.
    reflexivity.
Qed.

(** A path that fits is copied whole. *)
Lemma copy_home_short (junk : nat -> ascii) (home : string) :
  c_string home -> (String.length home < MAX_STRING - 1)%nat ->
  cstr (copy_home junk home) = home.
Proof.
  intros Hc Hlen. rewrite copy_home_eq.
  destruct (firstn_pad_short (MAX_STRING - 1) (chars home) nul) as [k Hk].
  - now rewrite chars_length.
  - rewrite Hk, <- app_assoc. simpl.
    rewrite cstr_app_nul by exact Hc. apply text_chars.
Qed.

(** Whatever the path, only its first [MAX_STRING - 1] characters reach
    the buffer. *)
Lemma copy_home_cut (junk : nat -> ascii) (home : string) :
  copy_home junk home = copy_home junk (cut_home home).
Proof.
  rewrite !copy_home_eq. unfold cut_home. rewrite chars_text.
  now rewrite <- firstn_app_cut.
Qed.

(** ** The separator walk *)

(** Where separator number [k] is: a separator, with [k] of them before
    it. *)
Lemma nth_sep_some (k : nat) (l : list ascii) (i : nat) :
  nth_sep k l = Some i ->
  (i < List.length l)%nat /\ nth i l nul = slash /\
  count_sep (firstn i l) = k.
Proof.
  revert k i. induction l as [|c l IH]; intros k i; simpl; [discriminate|].
  destruct (Ascii.eqb_spec c slash) as [->|Hc].
  - destruct k as [|k].
    + intros [= <-]. simpl. repeat split. lia.
    + destruct (nth_sep k l) as [j|] eqn:Hj; [|discriminate].
      intros [= <-]. destruct (IH _ _ Hj) as (H1 & H2 & H3).
      simpl. rewrite H3. repeat split; [lia | assumption].
  - destruct (nth_sep k l) as [j|] eqn:Hj; [|discriminate].
    intros [= <-]. destruct (IH _ _ Hj) as (H1 & H2 & H3).
    simpl. destruct (Ascii.eqb_spec c slash); [contradiction|].
    repeat split; [lia | assumption | assumption].
Qed.

Lemma nth_sep_none (k : nat) (l : list ascii) :
  nth_sep k l = None <-> (count_sep l <= k)%nat.
Proof.
  revert k. induction l as [|c l IH]; intros k; simpl.
  - split; [lia | reflexivity].
  - destruct (Ascii.eqb c slash).
    + destruct k as [|k]; [split; [discriminate | lia]|].
      specialize (IH k). destruct (nth_sep k l); simpl.
      * split; [discriminate | intros H; exfalso].
        assert (count_sep l <= k)%nat as H' by lia.
        apply IH in H'. discriminate.
      * split; [intros _ | reflexivity].
        assert (count_sep l <= k)%nat by now apply IH. lia.
    + specialize (IH k). destruct (nth_sep k l); simpl.
      * split; [discriminate | intros H].
        apply IH in H. discriminate.
      * split; [intros _; now apply IH | reflexivity].
Qed.

(** No prefix that holds exactly [k] separators reaches past separator
    number [k]. *)
Lemma nth_sep_longest (k : nat) (l : list ascii) (i : nat) :
  nth_sep k l = Some i ->
  forall r rest, l = r ++ rest -> count_sep r = k -> (List.length r <= i)%nat.
Proof.
  revert k i. induction l as [|c l IH]; intros k i; simpl; [discriminate|].
  intros H [|c' r] rest Hl Hr; simpl in *; [lia|].
  injection Hl as <- Hl.
  destruct (Ascii.eqb c slash).
  - destruct k as [|k]; [discriminate|].
    destruct (nth_sep k l) as [j|] eqn:Hj; [|discriminate].
    injection H as <-. injection Hr as Hr.
    specialize (IH _ _ Hj _ _ Hl Hr). lia.
  - destruct (nth_sep k l) as [j|] eqn:Hj; [|discriminate].
    injection H as <-. specialize (IH _ _ Hj _ _ Hl Hr). lia.
Qed.

(** The loop, run over a string and its terminator: it breaks at separator
    number [level - cnt - 1] of what is left, or ends with every separator
    counted. *)
Lemma walk_spec (level : Z) (l rest : list ascii) :
  ~ In nul l ->
  forall (p : nat) (cnt : Z), cnt < level ->
  walk level (l ++ nul :: rest) p cnt =
  match nth_sep (Z.to_nat (level - cnt - 1)) l with
  | Some i => (Some (p + i)%nat, level)
  | None => (None, cnt + Z.of_nat (count_sep l))
  end.
Proof.
  induction l as [|c l IH]; intros Hnul p cnt Hcnt.
  - simpl. now rewrite Z.add_0_r.
  - assert (c <> nul) as Hc by (intros ->; apply Hnul; now left).
    assert (~ In nul l) as Hl by (intros Hin; apply Hnul; now right).
    cbn [app walk nth_sep count_sep].
    destruct (Ascii.eqb_spec c nul) as [?|_]; [contradiction|].
    destruct (Ascii.eqb c slash).
    + destruct (Z.eqb_spec (cnt + 1) level) as [Heq|Hne].
      * replace (level - cnt - 1) with 0 by lia. simpl.
        now rewrite Nat.add_0_r, Heq.
      * rewrite (IH Hl) by lia.
        replace (Z.to_nat (level - cnt - 1))
          with (S (Z.to_nat (level - (cnt + 1) - 1))) by lia.
        destruct (nth_sep _ l); simpl.
        -- now rewrite Nat.add_succ_r.
        -- f_equal. lia.
    + destruct (Z.eqb_spec cnt level) as [Heq|_]; [lia|].
      rewrite (IH Hl) by lia.
      destruct (nth_sep _ l); simpl; [now rewrite Nat.add_succ_r | reflexivity].
Qed.

(** Lines 116-123 on a buffer that holds the string [l]. *)
Lemma extract_chroot_dir_spec (level : Z) (l rest : list ascii) :
  ~ In nul l -> 0 <= level ->
  extract_chroot_dir level (l ++ nul :: rest) =
  match nth_sep (Z.to_nat level) l with
  | Some i => (firstn i l ++ nul :: skipn (S i) (l ++ nul :: rest), level)
  | None => (l ++ nul :: rest, Z.of_nat (count_sep l) - 1)
  end.
Proof.
  intros Hnul Hlevel. unfold extract_chroot_dir.
  rewrite walk_spec by (assumption || lia).
  replace (level - -1 - 1) with level by lia.
  destruct (nth_sep (Z.to_nat level) l) as [i|] eqn:Hi.
  - apply nth_sep_some in Hi as (Hlt & _ & _). simpl Nat.add.
    rewrite write_at_cell by (rewrite length_app; lia).
    rewrite firstn_app. replace (i - List.length l)%nat with 0%nat by lia.
    now rewrite firstn_O, app_nil_r.
  - f_equal. lia.
Qed.

Lemma firstn_no_nul (n : nat) (l : list ascii) :
  ~ In nul l -> ~ In nul (firstn n l).
Proof.
  intros H Hin. apply H. rewrite <- (firstn_skipn n l).
  apply in_or_app. now left.
Qed.

Lemma is_prefix_chars (r path : string) :
  is_prefix r path <-> exists rest, chars path = chars r ++ rest.
Proof.
  split; intros [rest H].
  - exists (chars rest). now rewrite H, chars_app.
  - exists (text rest). rewrite <- (text_chars path), H, text_app.
    now rewrite text_chars.
Qed.

(** The prefix that ends just before separator number [k] is the longest
    one with exactly [k] separators. *)
Lemma longest_prefix_before_sep (k : nat) (path : string) (i : nat) :
  nth_sep k (chars path) = Some i ->
  longest_prefix separators k path (text (firstn i (chars path))).
Proof.
  intros Hi. destruct (nth_sep_some _ _ _ Hi) as (Hlt & _ & Hcount).
  repeat split.
  - apply is_prefix_chars. exists (skipn i (chars path)).
    now rewrite chars_text, firstn_skipn.
  - unfold separators. now rewrite chars_text.
  - intros r' Hpre Hr'. apply is_prefix_chars in Hpre as [rest Hrest].
    rewrite <- !chars_length, chars_text, length_firstn.
    pose proof (nth_sep_longest _ _ _ Hi _ _ Hrest Hr'). lia.
Qed.

(** ** Jail-root derivation *)

Lemma copy_home_holds (junk : nat -> ascii) (home : string) :
  (String.length home < MAX_STRING - 1)%nat ->
  exists rest, copy_home junk home = chars home ++ nul :: rest.
Proof.
  intros Hlen. rewrite copy_home_eq.
  destruct (firstn_pad_short (MAX_STRING - 1) (chars home) nul) as [k Hk].
  - now rewrite chars_length.
  - rewrite Hk, <- app_assoc. simpl. eauto.
Qed.

Lemma absolute_separators (path : string) :
  absolute path -> separators path = S (interior_separators path).
Proof.
  intros [rest ->]. unfold separators, interior_separators. simpl.
  reflexivity.
Qed.

(** C2, as amended.  For a home path that fits the buffer and a level
    [L >= 0], the derivation (lines 116-130) returns the longest prefix of
    the path that holds exactly [L] separators, the leading one counted:
    the prefix that ends just before separator number [L], as in
    [/home/chroot/home/joe] giving [/home/chroot] at level 2.  It stops
    with the "too short" diagnostic and status 255 exactly when the path
    holds at most [L] separators in all, which for an absolute path is
    fewer than [L] after the leading one. *)
Theorem jail_root_derivation (w : world) (level : Z) (home : string)
    (s : state) :
  0 <= level -> c_string home -> (String.length home < MAX_STRING - 1)%nat ->
  (level < Z.of_nat (separators home) ->
   exists chroot_dir,
     jail_root w level (copy_home (w_junk w 2) home) s = (Ret chroot_dir, s) /\
     longest_prefix separators (Z.to_nat level) home (cstr chroot_dir)) /\
  (Z.of_nat (separators home) <= level ->
   jail_root w level (copy_home (w_junk w 2) home) s =
   (Halt (Exit 255),
    mkstate (st_proc s) (st_vectors s) (st_environ s)
      (st_trace s ++ [Fprintf (msg_too_short (w_argv0 w) home level)]))) /\
  (absolute home -> separators home = S (interior_separators home)).
Proof.
  intros Hlevel Hc Hlen.
  destruct (copy_home_holds (w_junk w 2) home Hlen) as [rest Hbuf].
  unfold jail_root. rewrite Hbuf, extract_chroot_dir_spec by assumption.
  destruct (nth_sep (Z.to_nat level) (chars home)) as [i|] eqn:Hi.
  - split; [|split; [|apply absolute_separators]].
    + intros _. eexists. split.
      * cbv [when bind ret]. rewrite Z.ltb_irrefl. reflexivity.
      * rewrite cstr_app_nul by (apply firstn_no_nul; exact Hc).
        now apply longest_prefix_before_sep.
    + intros Hfew. exfalso.
      assert (nth_sep (Z.to_nat level) (chars home) = None) as Hnone
        by (apply nth_sep_none; unfold separators in Hfew; lia).
      congruence.
  - apply nth_sep_none in Hi. unfold separators.
    split; [|split; [|apply absolute_separators]].
    + intros Hmany. lia.
    + intros _. cbv [when bind ret fprintf_stderr emit exit].
      destruct (Z.ltb_spec (Z.of_nat (count_sep (chars home)) - 1) level);
        [|lia].
      rewrite cstr_app_nul by exact Hc. now rewrite text_chars.
Qed.

(** C10.  Whatever the outer home path, the derivation runs on the buffer
    that line 100 fills, and that buffer is the same as for the path cut
    to its first [MAX_STRING - 1 = 1023] characters: the derived root and
    the "too short" verdict are those of the cut path. *)
Theorem derivation_reads_cut_home (w : world) (level : Z) (home : string)
    (s : state) :
  jail_root w level (copy_home (w_junk w 2) home) s =
  jail_root w level (copy_home (w_junk w 2) (cut_home home)) s /\
  is_prefix (cut_home home) home /\
  String.length (cut_home home) = Nat.min 1023 (String.length home).
Proof.
  split; [|split].
  - now rewrite <- copy_home_cut.
  - apply is_prefix_chars. exists (skipn (MAX_STRING - 1) (chars home)).
    unfold cut_home. now rewrite chars_text, firstn_skipn.
  - unfold cut_home. rewrite <- !chars_length, chars_text, length_firstn.
    reflexivity.
Qed.

(** ** The path of the shell and the [HOME] entry (lines 135-136, 191-192) *)

Lemma write_at_inside (buf : buffer) (i : nat) (data : list ascii) :
  (i + List.length data <= List.length buf)%nat ->
  write_at buf i data = firstn i buf ++ data ++ skipn (i + List.length data) buf.
Proof.
  intros H. unfold write_at. apply firstn_all2.
  rewrite !length_app, length_firstn, length_skipn. lia.
Qed.

Lemma cstr_app (a rest : list ascii) :
  ~ In nul a -> cstr (a ++ rest) = (text a ++ cstr rest)%string.
Proof.
  unfold cstr. induction a as [|c a IH]; intros H; simpl; [reflexivity|].
  destruct (Ascii.eqb_spec c nul) as [->|_].
  - exfalso. apply H. now left.
  - simpl. f_equal. apply IH. intros Hin. apply H. now right.
Qed.

Lemma firstn_strlen (buf : buffer) : firstn (strlen buf) buf = chars (cstr buf).
Proof. unfold cstr. now rewrite chars_text. Qed.

Lemma strlen_cstr (buf : buffer) : strlen buf = String.length (cstr buf).
Proof.
  rewrite <- chars_length, <- firstn_strlen, length_firstn.
  pose proof (strlen_le buf). lia.
Qed.

Lemma size_sub_fits (a b : nat) :
  (b <= a)%nat -> Z.of_nat a < 2 ^ 64 -> size_sub a b = (a - b)%nat.
Proof.
  intros H Ha. unfold size_sub. rewrite Z.mod_small by lia. lia.
Qed.

(** What follows a terminator is not read. *)
Lemma cstr_till_nul (d rest : list ascii) : cstr (d ++ nul :: rest) = cstr d.
Proof.
  unfold cstr. induction d as [|c d IH]; simpl; [reflexivity|].
  destruct (Ascii.eqb c nul); simpl; [reflexivity | now rewrite IH].
Qed.

Lemma cstr_no_nul (d : list ascii) : ~ In nul d -> cstr d = text d.
Proof.
  intros H. rewrite <- (app_nil_r d) at 1.
  rewrite cstr_app by assumption. unfold cstr. simpl.
  rewrite <- (app_nil_r d) at 2. now rewrite text_app.
Qed.

(** [strncat] with room for what it appends and the terminator. *)
Lemma strncat_cstr (dst : buffer) (src : string) (n : nat) :
  (strlen dst + Nat.min n (String.length src) < List.length dst)%nat ->
  cstr (strncat dst src n) =
  (cstr dst ++ cstr (firstn n (chars src)))%string.
Proof.
  intros Hroom. unfold strncat.
  assert (List.length (firstn n (chars src) ++ [nul])
          = S (Nat.min n (String.length src))) as Hlen
    by (rewrite length_app, length_firstn, chars_length; simpl; lia).
  rewrite write_at_inside by lia.
  rewrite cstr_app by apply strlen_no_nul.
  rewrite firstn_strlen, text_chars. f_equal.
  rewrite <- app_assoc. simpl. apply cstr_till_nul.
Qed.

Lemma strncpy_cstr (dst : buffer) (src : string) (n : nat) :
  c_string src -> (String.length src < n)%nat -> (n <= List.length dst)%nat ->
  cstr (strncpy dst src n) = src.
Proof.
  intros Hc Hlen Hn. unfold strncpy.
  rewrite write_at_0 by (rewrite firstn_pad_length; exact Hn).
  destruct (firstn_pad_short n (chars src) nul) as [k Hk];
    [now rewrite chars_length|].
  rewrite Hk, <- app_assoc. simpl.
  rewrite cstr_app_nul by exact Hc. apply text_chars.
Qed.

Lemma strcpy_cstr (dst : buffer) (src : string) :
  c_string src -> (String.length src < List.length dst)%nat ->
  cstr (strcpy dst src) = src.
Proof.
  intros Hc Hlen. unfold strcpy.
  rewrite write_at_0 by (rewrite length_app, chars_length; simpl; lia).
  rewrite <- app_assoc. simpl.
  rewrite cstr_app_nul by exact Hc. apply text_chars.
Qed.

Lemma c_string_check (s : string) :
  forallb (fun c => negb (Ascii.eqb c nul)) (chars s) = true -> c_string s.
Proof.
  intros H Hin. rewrite forallb_forall in H. specialize (H _ Hin).
  now rewrite Ascii.eqb_refl in H.
Qed.

Lemma SHELL_c_string : c_string SHELL.
Proof. apply c_string_check. reflexivity. Qed.

Lemma MAX_STRING_size : Z.of_nat MAX_STRING < 2 ^ 64.
Proof. reflexivity. Qed.

(** When the jail root and [SHELL] fit the array together, the path
    checked is their concatenation. *)
Lemma shell_buffer_fits (junk : nat -> ascii) (chroot_dir : buffer) :
  (String.length (cstr chroot_dir) + String.length SHELL < MAX_STRING)%nat ->
  cstr (shell_buffer junk chroot_dir) = (cstr chroot_dir ++ SHELL)%string.
Proof.
  intros Hfit. unfold shell_buffer.
  set (shell := strncpy (auto_array junk) (cstr chroot_dir) MAX_STRING).
  assert (List.length shell = frame_size) as Hlen
    by (unfold shell, strncpy; now rewrite write_at_length, auto_array_length).
  assert (cstr shell = cstr chroot_dir) as Hshell.
  { apply strncpy_cstr; [apply cstr_c_string | lia |].
    rewrite auto_array_length. unfold frame_size. lia. }
  assert (strlen shell = String.length (cstr chroot_dir)) as Hstrlen
    by now rewrite strlen_cstr, Hshell.
  rewrite size_sub_fits by (exact MAX_STRING_size || lia).
  rewrite strncat_cstr by (rewrite Hlen; unfold frame_size; lia).
  rewrite Hshell. f_equal.
  rewrite firstn_all2 by (rewrite chars_length; lia).
  rewrite cstr_no_nul by exact SHELL_c_string. apply text_chars.
Qed.

(** Then all stores of lines 135-136 stay inside [shell], and [chroot_dir]
    is as it was. *)
Lemma after_shell_fits (junk : nat -> ascii) (chroot_dir : buffer) :
  shell_fits (cstr chroot_dir) -> after_shell junk chroot_dir = chroot_dir.
Proof.
  unfold shell_fits, after_shell. intros Hfit.
  set (shell := strncpy (auto_array junk) (cstr chroot_dir) MAX_STRING).
  assert (cstr shell = cstr chroot_dir) as Hshell.
  { apply strncpy_cstr; [apply cstr_c_string | lia |].
    rewrite auto_array_length. unfold frame_size. lia. }
  assert (strlen shell = String.length (cstr chroot_dir)) as Hstrlen
    by now rewrite strlen_cstr, Hshell.
  cbv zeta. unfold strncat_end. rewrite Hstrlen.
  rewrite size_sub_fits by (exact MAX_STRING_size || lia).
  destruct (Nat.ltb_spec
              (String.length (cstr chroot_dir)
               + Nat.min (MAX_STRING - String.length (cstr chroot_dir))
                   (String.length SHELL)) MAX_STRING); [reflexivity | lia].
Qed.

Lemma jail_path_fits (w : world) (chroot_dir : buffer) :
  shell_fits (cstr chroot_dir) -> jail_path w chroot_dir = cstr chroot_dir.
Proof. intros H. unfold jail_path. now rewrite after_shell_fits. Qed.

(** The entry for [putenv] is [HOME=] and then the inner home path, as
    much of it as the bound of [strncat] lets through. *)
Lemma home_buffer_cstr (junk : nat -> ascii) (dir : string) :
  cstr (home_buffer junk dir) =
  ("HOME=" ++ cstr (firstn (MAX_STRING - 5) (chars dir)))%string.
Proof.
  unfold home_buffer.
  set (home_dir := strcpy (auto_array junk) "HOME=").
  assert (List.length home_dir = frame_size) as Hlen
    by (unfold home_dir, strcpy; now rewrite write_at_length, auto_array_length).
  assert (cstr home_dir = "HOME=") as Hhome.
  { apply strcpy_cstr; [apply c_string_check; reflexivity |].
    rewrite auto_array_length. unfold frame_size, MAX_STRING. simpl. lia. }
  assert (strlen home_dir = 5%nat) as Hstrlen
    by now rewrite strlen_cstr, Hhome.
  rewrite Hstrlen.
  rewrite size_sub_fits by (exact MAX_STRING_size || (unfold MAX_STRING; lia)).
  rewrite strncat_cstr
    by (rewrite Hlen, Hstrlen; unfold frame_size, MAX_STRING; lia).
  now rewrite Hhome.
Qed.

Lemma home_buffer_has_equals (junk : nat -> ascii) (dir : string) :
  has_equals (cstr (home_buffer junk dir)) = true.
Proof. now rewrite home_buffer_cstr. Qed.

Lemma home_buffer_env_name (junk : nat -> ascii) (dir : string) :
  env_name (cstr (home_buffer junk dir)) = "HOME".
Proof. now rewrite home_buffer_cstr. Qed.

Lemma home_entry_eq (w : world) (dir : string) :
  home_entry w dir =
  ("HOME=" ++ cstr (firstn (MAX_STRING - 5) (chars dir)))%string.
Proof. apply home_buffer_cstr. Qed.

Lemma home_entry_fits (w : world) (dir : string) :
  c_string dir -> (String.length "HOME=" + String.length dir < MAX_STRING)%nat ->
  home_entry w dir = ("HOME=" ++ dir)%string.
Proof.
  intros Hc Hfit. rewrite home_entry_eq. f_equal.
  rewrite firstn_all2
    by (rewrite chars_length; simpl in Hfit; unfold MAX_STRING in *; lia).
  rewrite cstr_no_nul by exact Hc. apply text_chars.
Qed.

Lemma home_entry_names_HOME (w : world) (dir : string) :
  has_equals (home_entry w dir) = true /\ env_name (home_entry w dir) = "HOME".
Proof.
  rewrite home_entry_eq. split; reflexivity.
Qed.


(** ** Whole runs *)

(** Symbolic execution of [main]: unfold the monad and the calls, then
    split on the next answer of the system that the run depends on. *)
Ltac run_main :=
  cbv beta iota zeta delta
    [run trace ending main initial bind ret when or_else emit set_proc get_proc
     exit fprintf_stderr getuid geteuid getpwuid stat chdir chroot setuid
     putenv execve jail_root fst snd negb load envp
     real_user target_uid proc0 moved_to rooted_at after_setuid jailed
     outer_record inner_record shell_path jail_path home_entry
     envp_after_putenv home_checks
     st_proc st_vectors st_environ st_trace p_ruid p_euid p_root p_cwd].

(** Use what is already known of a scrutinee; [recall] rewrites with any
    equation at hand. *)
Ltac known :=
  repeat match goal with
         | H : ?c = _ |- context [match ?c with _ => _ end] => rewrite H
         end.

Ltac recall :=
  repeat match goal with
         | H : _ = _ |- context [match _ with _ => _ end] =>
             progress rewrite H
         end.

(** Split on the first scrutinee that is free of other case analyses, and
    drop the case where the run has ended otherwise than assumed. *)
Ltac branch :=
  known;
  try rewrite !home_buffer_has_equals;
  try rewrite !home_buffer_env_name;
  match goal with
  | |- context [match ?c with _ => _ end] =>
      lazymatch c with
      | context [match _ with _ => _ end] => fail
      | _ => destruct c eqn:?
      end
  end; run_main; try solve [intros ?; discriminate].

(** How a run that ends in the shell got there. *)
Lemma exec_inversion (w : world) (tr : list event) (path : string)
    (argv : list string) (env : vector) :
  run w = (tr, Exec path argv env) ->
  exists pw chroot_dir cnt st_mode pw',
    w_euid w = 0 /\ real_user w <> 0 /\
    outer_record w = Some pw /\
    extract_chroot_dir CHROOT_LEVEL (copy_home (w_junk w 2) (pw_dir pw))
      = (chroot_dir, cnt) /\
    CHROOT_LEVEL <= cnt /\
    w_stat w (proc0 w) (shell_path w chroot_dir) = StatOk st_mode /\
    S_ISREG st_mode = true /\
    w_chdir w (proc0 w) (jail_path w chroot_dir) = SysOk /\
    w_chroot w (moved_to (proc0 w) (jail_path w chroot_dir))
      (jail_path w chroot_dir) = SysOk /\
    inner_record w (jail_path w chroot_dir) = Some pw' /\
    w_chdir w (jailed w (jail_path w chroot_dir)) (pw_dir pw') = SysOk /\
    path = SHELL /\
    argv = pw_shell pw' :: w_args w /\
    env = envp_after_putenv (w_envp w) (home_entry w (pw_dir pw')) /\
    tr = home_checks w pw ++
         [Stat (shell_path w chroot_dir);
          Chdir (jail_path w chroot_dir); Chroot (jail_path w chroot_dir);
          Setuid (target_uid w); Getpwuid (target_uid w);
          Chdir (pw_dir pw'); Putenv (home_entry w (pw_dir pw'));
          Execve SHELL argv env].
Proof.
  run_main. repeat branch.
  all: cbn [app nth store]; intros [= <- <- <- <-]; do 5 eexists.
  all: repeat match goal with |- _ /\ _ => split end.
  all: cbn [nth store] in *;
    rewrite ?home_buffer_has_equals, ?home_buffer_env_name; recall;
    first [ eassumption | reflexivity | now apply Z.eqb_eq
          | now apply Z.eqb_neq | now apply Z.ltb_ge ].
Qed.

Lemma target_uid_eq (w : world) : uid_t (w_ruid w) -> target_uid w = w_ruid w.
Proof.
  unfold uid_t, target_uid, real_user, uid_of_int, int_of_uid.
  change (2 ^ 31) with 2147483648. change (2 ^ 32) with 4294967296.
  intros H. Z.to_euclidean_division_equations. lia.
Qed.

Lemma derived_root_extract (w : world) (level : Z) (home : string)
    (chroot_dir : buffer) (cnt : Z) :
  extract_chroot_dir level (copy_home (w_junk w 2) home) = (chroot_dir, cnt) ->
  level <= cnt ->
  derived_root w level home = Some (cstr chroot_dir).
Proof.
  intros Hex Hcnt. unfold derived_root, jail_root. rewrite Hex.
  cbv [when bind ret]. destruct (Z.ltb_spec cnt level); [lia | reflexivity].
Qed.

Lemma derived_root_inv (w : world) (level : Z) (home jail : string) :
  derived_root w level home = Some jail ->
  exists chroot_dir cnt,
    extract_chroot_dir level (copy_home (w_junk w 2) home) = (chroot_dir, cnt) /\
    (cnt <? level) = false /\ jail = cstr chroot_dir.
Proof.
  unfold derived_root, jail_root.
  destruct (extract_chroot_dir _ _) as [chroot_dir cnt].
  cbv [when bind ret fprintf_stderr emit exit].
  destruct (cnt <? level) eqn:Hcnt; [discriminate|].
  intros [= <-]. exists chroot_dir, cnt. auto.
Qed.

Lemma home_checks_quiet (w : world) (pw_ent : passwd) :
  forallb (fun e => negb (transition e)) (home_checks w pw_ent) = true.
Proof.
  unfold home_checks.
  destruct (Ascii.eqb _ slash); destruct (w_stat _ _ _); reflexivity.
Qed.

(** C3.  When the effective uid is not 0, or the real uid is 0, the run is
    the two uid queries and one diagnostic, and ends with a non-zero
    status: no [chroot], [setuid] or [execve] is called. *)
Theorem preflight_refuses (w : world) :
  w_euid w <> 0 \/ w_ruid w = 0 ->
  exists status msg,
    ending w = Exit status /\ status <> 0 /\
    (msg = msg_not_setuid (w_argv0 w) \/ msg = msg_root_user (w_argv0 w)) /\
    trace w = [Getuid; Geteuid; Fprintf msg] /\
    forallb (fun e => negb (jail_call e)) (trace w) = true.
Proof.
  intros H. run_main.
  destruct (Z.eqb_spec (w_euid w) 0) as [He|He]; run_main.
  - destruct H as [H|H]; [contradiction|]. rewrite H.
    change (int_of_uid 0 =? 0) with true. run_main.
    exists 255, (msg_root_user (w_argv0 w)).
    repeat split; [discriminate | now right].
  - exists 255, (msg_not_setuid (w_argv0 w)).
    repeat split; [discriminate | now left].
Qed.

(** C1.  A run that ends in the shell, from a jail root that fits [shell]
    together with [SHELL], made after the checks that change nothing
    exactly these calls in this order: [chdir] to the jail root, [chroot]
    to it, [setuid] to the real uid, the lookup in the jail's database,
    [chdir] to the inner home, [putenv] of a [HOME] entry, and [execve] of
    [SHELL].  Nothing lies between [chroot] and [setuid]. *)
Theorem call_order (w : world) (path : string) (argv : list string)
    (env : vector) (pw : passwd) (jail : string) :
  uid_t (w_ruid w) ->
  ending w = Exec path argv env ->
  outer_record w = Some pw ->
  derived_root w CHROOT_LEVEL (pw_dir pw) = Some jail ->
  shell_fits jail ->
  exists pw' before,
    inner_record w jail = Some pw' /\
    trace w = before ++
      [Chdir jail; Chroot jail; Setuid (w_ruid w); Getpwuid (w_ruid w);
       Chdir (pw_dir pw'); Putenv (home_entry w (pw_dir pw'));
       Execve SHELL argv env] /\
    env_name (home_entry w (pw_dir pw')) = "HOME" /\
    forallb (fun e => negb (transition e)) before = true.
Proof.
  intros Huid Hend Hout Hjail Hfit. unfold ending, trace in *.
  destruct (run w) as [tr o] eqn:Hrun. cbn [fst snd] in *. subst o.
  apply exec_inversion in Hrun
    as (pw0 & cd & cnt & m & pw' & _ & _ & Hout0 & Hex & Hcnt & _ & _ & _ & _
        & Hin & _ & _ & _ & _ & ->).
  assert (pw0 = pw) as -> by congruence.
  rewrite (derived_root_extract _ _ _ _ _ Hex Hcnt) in Hjail.
  injection Hjail as <-.
  rewrite (jail_path_fits w cd Hfit) in *.
  exists pw', (home_checks w pw ++ [Stat (shell_path w cd)]).
  rewrite <- (target_uid_eq w Huid).
  split; [assumption|].
  split; [now rewrite <- app_assoc|].
  split; [apply home_entry_names_HOME|].
  rewrite forallb_app, home_checks_quiet. reflexivity.
Qed.

(** C8.  In a run that ends in the shell, from a jail root that fits
    [shell] together with [SHELL], the image executed is the constant
    [SHELL]; the argument vector is the invoker's with entry 0 replaced by
    the shell field of the record found in the jail's database. *)
Theorem exec_arguments (w : world) (path : string) (argv : list string)
    (env : vector) (pw : passwd) (jail : string) :
  ending w = Exec path argv env ->
  outer_record w = Some pw ->
  derived_root w CHROOT_LEVEL (pw_dir pw) = Some jail ->
  shell_fits jail ->
  exists pw',
    inner_record w jail = Some pw' /\
    path = SHELL /\
    argv = pw_shell pw' :: w_args w /\
    exists before,
      trace w = before ++ [Execve SHELL (pw_shell pw' :: w_args w) env].
Proof.
  intros Hend Hout Hjail Hfit. unfold ending, trace in *.
  destruct (run w) as [tr o] eqn:Hrun. cbn [fst snd] in *. subst o.
  apply exec_inversion in Hrun
    as (pw0 & cd & cnt & m & pw' & _ & _ & Hout0 & Hex & Hcnt & _ & _ & _ & _
        & Hin & _ & -> & -> & _ & ->).
  assert (pw0 = pw) as -> by congruence.
  rewrite (derived_root_extract _ _ _ _ _ Hex Hcnt) in Hjail.
  injection Hjail as <-.
  rewrite (jail_path_fits w cd Hfit) in *.
  exists pw'.
  split; [assumption|].
  do 2 (split; [reflexivity|]).
  eexists (_ ++ [_; _; _; _; _; _; _]).
  rewrite <- app_assoc. reflexivity.
Qed.

(** ** The environment of the shell *)

Lemma store_nth_error_other {A} (l : list A) (i j : nat) (x : A) :
  j <> i -> nth_error (store l i x) j = nth_error l j.
Proof.
  revert i j. induction l as [|a l IH]; intros [|i] [|j] H; simpl;
    try reflexivity; try contradiction.
  apply IH. congruence.
Qed.

Lemma find_after_store (name : string) (v : vector) (i : nat) (e : string) :
  find_entry name v = Some i -> names name e = true ->
  find (names name) (store v i e) = Some e.
Proof.
  revert i. induction v as [|x v IH]; intros i; simpl; [discriminate|].
  destruct (names name x) eqn:Hx.
  - intros [= <-] He. simpl. now rewrite He.
  - destruct (find_entry name v) as [j|]; [|discriminate].
    intros [= <-] He. simpl. rewrite Hx. now apply IH.
Qed.

Lemma substring_all (s : string) : substring 0 (String.length s) s = s.
Proof. induction s; simpl; [reflexivity | now rewrite IHs]. Qed.

Lemma getenv_HOME_after_store (v : vector) (i : nat) (dir : string) :
  find_entry "HOME" v = Some i ->
  getenv_in (store v i ("HOME=" ++ dir)%string) "HOME" = Some dir.
Proof.
  intros Hi. unfold getenv_in.
  rewrite (find_after_store _ _ _ _ Hi) by reflexivity.
  simpl. rewrite Nat.sub_0_r. now rewrite substring_all.
Qed.

(** C7, as amended.  In a run that ends in the shell, from a jail root
    that fits [shell] together with [SHELL], when the inherited
    environment holds a [HOME] entry and [HOME=] with the inner home path
    fits the array, the environment handed to [execve] is the inherited
    one with its first [HOME] entry replaced by [HOME=] and the inner home
    path; every other entry is as inherited. *)
Theorem exec_environment (w : world) (path : string) (argv : list string)
    (env : vector) (pw : passwd) (jail : string) (pw' : passwd) (i : nat) :
  ending w = Exec path argv env ->
  outer_record w = Some pw ->
  derived_root w CHROOT_LEVEL (pw_dir pw) = Some jail ->
  shell_fits jail ->
  inner_record w jail = Some pw' ->
  c_string (pw_dir pw') ->
  (String.length "HOME=" + String.length (pw_dir pw') < MAX_STRING)%nat ->
  find_entry "HOME" (w_envp w) = Some i ->
  env = store (w_envp w) i ("HOME=" ++ pw_dir pw')%string /\
  getenv_in env "HOME" = Some (pw_dir pw') /\
  forall j, j <> i -> nth_error env j = nth_error (w_envp w) j.
Proof.
  intros Hend Hout Hjail Hroot Hin Hc Hfit Hi. unfold ending in Hend.
  destruct (run w) as [tr o] eqn:Hrun. cbn [snd] in Hend. subst o.
  apply exec_inversion in Hrun
    as (pw0 & cd & cnt & m & pw0' & _ & _ & Hout0 & Hex & Hcnt & _ & _ & _
        & _ & Hin0 & _ & _ & _ & -> & _).
  assert (pw0 = pw) as -> by congruence.
  rewrite (derived_root_extract _ _ _ _ _ Hex Hcnt) in Hjail.
  injection Hjail as <-.
  rewrite (jail_path_fits w cd Hroot) in Hin0.
  assert (pw0' = pw') as -> by congruence.
  rewrite (home_entry_fits w _ Hc Hfit).
  unfold envp_after_putenv. simpl has_equals. simpl env_name. rewrite Hi.
  split; [reflexivity|]. split.
  - now apply getenv_HOME_after_store.
  - intros j Hj. now apply store_nth_error_other.
Qed.

(** ** The check of the shell (lines 135-147) *)

(** C6, as amended.  Once a jail root is derived that fits the array
    together with [SHELL], the next call after the checks of the home
    directory is [stat] of the jail root followed by [SHELL], made on the
    host, before any call that changes the process.  If that path cannot
    be examined, or is not a regular file, the run ends there with a
    diagnostic and status 255. *)
Theorem shell_checked_before_chroot (w : world) (pw : passwd)
    (jail : string) :
  w_euid w = 0 -> real_user w <> 0 ->
  outer_record w = Some pw ->
  derived_root w CHROOT_LEVEL (pw_dir pw) = Some jail ->
  (String.length jail + String.length SHELL < MAX_STRING)%nat ->
  exists after,
    trace w = home_checks w pw ++ Stat (jail ++ SHELL)%string :: after /\
    forallb (fun e => negb (transition e)) (home_checks w pw) = true /\
    ((forall st_mode,
        w_stat w (proc0 w) (jail ++ SHELL)%string = StatOk st_mode ->
        S_ISREG st_mode = false) ->
     ending w = Exit 255 /\ exists msg, after = [Fprintf msg]).
Proof.
  intros He Hr Ho Hd Hfit.
  apply derived_root_inv in Hd as (cd & cnt & Hex & Hcnt & ->).
  rewrite <- (shell_buffer_fits (w_junk w 1) cd Hfit).
  apply Z.eqb_eq in He. apply Z.eqb_neq in Hr.
  revert He Hr Ho Hex Hcnt. run_main. intros He Hr Ho Hex Hcnt.
  repeat branch.
  all: eexists; cbn [app]; split; [reflexivity|]; split; [reflexivity|].
  all: intros Hall;
    first [ split; [reflexivity | eexists; reflexivity]
          | specialize (Hall _ eq_refl); congruence ].
Qed.

(** ** A relative outer home (lines 103-106) *)

Lemma nth_0_padded (n : nat) (l r : list ascii) :
  nth 0 (firstn (S n) (l ++ repeat nul (S n)) ++ r) nul = hd nul l.
Proof. destruct l; reflexivity. Qed.

Lemma first_byte_absolute (junk : nat -> ascii) (home : string) :
  Ascii.eqb (nth 0 (copy_home junk home) nul) slash = true <-> absolute home.
Proof.
  rewrite copy_home_eq.
  change (MAX_STRING - 1)%nat with (S 1022). rewrite nth_0_padded.
  destruct home as [|c rest]; simpl.
  - split; [discriminate | intros [? [=]]].
  - rewrite Ascii.eqb_eq. split.
    + intros ->. now exists rest.
    + now intros [? [= -> _]].
Qed.

Lemma walk_breaks_at_level (level : Z) (rest : list ascii) :
  forall (p : nat) (cnt : Z) (i : nat) (c : Z),
  walk level rest p cnt = (Some i, c) -> c = level.
Proof.
  induction rest as [|a rest IH]; intros p cnt i c; simpl; [discriminate|].
  destruct (Ascii.eqb a nul); [discriminate|].
  destruct (Z.eqb_spec (if Ascii.eqb a slash then cnt + 1 else cnt) level)
    as [Heq|_].
  - now intros [= _ <-].
  - apply IH.
Qed.

(** A walk that ends below the level has left the buffer as it was. *)
Lemma extract_unbroken (level : Z) (buf b : buffer) (cnt : Z) :
  extract_chroot_dir level buf = (b, cnt) -> cnt < level -> b = buf.
Proof.
  unfold extract_chroot_dir.
  destruct (walk level buf 0 (-1)) as [[i|] c] eqn:Hw; intros [= <- <-] Hlt.
  - apply walk_breaks_at_level in Hw. lia.
  - reflexivity.
Qed.

(** C9.  When the outer home path does not begin with [/], the run prints
    the diagnostic that names the path as copied to [chroot_dir] (the
    path itself when it fits), and goes on: [stat] of the home directory
    comes next, then the derivation, which either stops the run as "too
    short" or leads to the check of the shell under the root derived. *)
Theorem relative_home_not_fatal (w : world) (pw : passwd) :
  w_euid w = 0 -> real_user w <> 0 ->
  outer_record w = Some pw ->
  ~ absolute (pw_dir pw) ->
  let named := cstr (copy_home (w_junk w 2) (pw_dir pw)) in
  (c_string (pw_dir pw) ->
   (String.length (pw_dir pw) < MAX_STRING - 1)%nat -> named = pw_dir pw) /\
  exists rest,
    trace w =
      [Getuid; Geteuid; Getpwuid (target_uid w);
       Fprintf (msg_not_absolute (w_argv0 w) named); Stat named] ++ rest /\
    (derived_root w CHROOT_LEVEL (pw_dir pw) = None ->
     ending w = Exit 255 /\
     exists diag,
       rest = diag ++ [Fprintf (msg_too_short (w_argv0 w) named CHROOT_LEVEL)]
       /\ forallb (fun e => negb (transition e)) diag = true) /\
    (forall jail,
       derived_root w CHROOT_LEVEL (pw_dir pw) = Some jail ->
       exists chroot_dir diag after,
         cstr chroot_dir = jail /\
         rest = diag ++ Stat (shell_path w chroot_dir) :: after /\
         forallb (fun e => negb (transition e)) diag = true).
Proof.
  intros He Hr Ho Habs named. subst named.
  split; [apply copy_home_short|].
  assert (Ascii.eqb (nth 0 (copy_home (w_junk w 2) (pw_dir pw)) nul) slash
          = false) as Hb.
  { destruct (Ascii.eqb _ slash) eqn:E; [|reflexivity].
    apply first_byte_absolute in E. contradiction. }
  apply Z.eqb_eq in He. apply Z.eqb_neq in Hr.
  unfold derived_root.
  revert He Hr Ho Hb. run_main. intros He Hr Ho Hb.
  repeat branch.
  all: try match goal with
           | H : extract_chroot_dir _ _ = (?b, ?z), H' : (?z <? _) = true |- _ =>
               apply extract_unbroken in H;
               [subst b | now apply Z.ltb_lt in H']
           end.
  all: eexists; cbn [app]; split; [reflexivity|]; split.
  all: try (intros [=]; fail).
  all: try solve [intros _; split; [reflexivity|];
                  first [ exists []; split; reflexivity
                        | eexists [_]; split; reflexivity ]].
  all: try solve [intros jail [= <-]; eexists;
                  first [ exists []; eexists; repeat split; reflexivity
                        | eexists [_]; eexists; repeat split; reflexivity ]].
Qed.

(** ** What holds of every run *)

(** Close a case where a call is said to be in a trace that lacks it. *)
Ltac absent :=
  match goal with
  | H : In _ _ |- _ =>
      cbn [In app] in H;
      repeat match type of H with
             | _ \/ _ => destruct H as [H|H]
             end;
      first [ discriminate H | contradiction ]
  end.

(** Whenever [execve] returns, the process ends with status 0. *)
Lemma exec_return_status (w : world) (tr : list event) (status : Z)
    (path : string) (argv : list string) (env : vector) :
  run w = (tr, Exit status) -> In (Execve path argv env) tr -> status = 0.
Proof.
  run_main. repeat branch.
  all: cbn [app]; intros [= <- <-] Hin; first [ reflexivity | absent ].
Qed.

(** [chroot] is only ever called by a process that passed the checks of
    the uids, on what [chroot_dir] holds once line 136 is done: the jail
    root derived from the home of the host record, when that root fits
    [shell] together with [SHELL]. *)
Lemma chroot_on_derived_root (w : world) (tr : list event) (o : outcome)
    (path : string) :
  run w = (tr, o) -> In (Chroot path) tr ->
  w_euid w = 0 /\ real_user w <> 0 /\
  exists pw chroot_dir,
    outer_record w = Some pw /\
    derived_root w CHROOT_LEVEL (pw_dir pw) = Some (cstr chroot_dir) /\
    path = jail_path w chroot_dir /\
    (shell_fits (cstr chroot_dir) -> path = cstr chroot_dir).
Proof.
  unfold derived_root. run_main. repeat branch.
  all: cbn [app]; intros [= <- <-] Hin; try absent.
  all: cbn [In] in Hin;
    repeat match type of Hin with
           | _ \/ _ => destruct Hin as [Hin|Hin]
           end; try discriminate Hin; try contradiction.
  all: injection Hin as <-.
  all: split; [now apply Z.eqb_eq|]; split; [now apply Z.eqb_neq|].
  all: do 2 eexists; split; [reflexivity|]; recall.
  all: split; [reflexivity|]; split; [reflexivity|].
  all: intros Hfit; now rewrite after_shell_fits.
Qed.

(** Whenever [setuid] is called, the next call is the lookup in the jail's
    database: nothing in between looks at what [setuid] returned. *)
Lemma setuid_then_lookup (w : world) (tr : list event) (o : outcome) :
  run w = (tr, o) ->
  followed_by is_setuid tr = None \/
  followed_by is_setuid tr = Some (Some (Getpwuid (target_uid w))).
Proof.
  run_main. repeat branch.
  all: cbn [app]; intros [= <- <-]; cbn; auto.
Qed.

(** ** Runs of the examples *)

Lemma call_order_witness :
  exists pw' before,
    inner_record joe_login "/home/chroot" = Some pw' /\
    trace joe_login = before ++
      [Chdir "/home/chroot"; Chroot "/home/chroot";
       Setuid (w_ruid joe_login); Getpwuid (w_ruid joe_login);
       Chdir (pw_dir pw'); Putenv (home_entry joe_login (pw_dir pw'));
       Execve SHELL ["/bin/bash"] ["HOME=/home/joe"; "PATH=/bin"]] /\
    env_name (home_entry joe_login (pw_dir pw')) = "HOME" /\
    forallb (fun e => negb (transition e)) before = true.
Proof.
  apply (call_order joe_login SHELL ["/bin/bash"]
           ["HOME=/home/joe"; "PATH=/bin"] joe_host "/home/chroot").
  - unfold uid_t. cbn. lia.
  - vm_compute. reflexivity.
  - reflexivity.
  - vm_compute. reflexivity.
  - unfold shell_fits. vm_compute. lia.
Defined.

Lemma jail_root_derivation_witness :
  exists chroot_dir,
    jail_root joe_login 2
      (copy_home (w_junk joe_login 2) "/home/chroot/home/joe")
      (initial joe_login)
    = (Ret chroot_dir, initial joe_login) /\
    longest_prefix separators 2 "/home/chroot/home/joe" (cstr chroot_dir).
Proof.
  apply (jail_root_derivation joe_login 2 "/home/chroot/home/joe"
           (initial joe_login)).
  - lia.
  - apply c_string_check. reflexivity.
  - vm_compute. lia.
  - vm_compute. reflexivity.
Defined.

Lemma preflight_refuses_witness :
  exists status msg,
    ending not_setuid = Exit status /\ status <> 0 /\
    (msg = msg_not_setuid (w_argv0 not_setuid) \/
     msg = msg_root_user (w_argv0 not_setuid)) /\
    trace not_setuid = [Getuid; Geteuid; Fprintf msg] /\
    forallb (fun e => negb (jail_call e)) (trace not_setuid) = true.
Proof.
  apply (preflight_refuses not_setuid). left. discriminate.
Defined.

Lemma shell_checked_before_chroot_witness :
  exists after,
    trace no_shell =
      home_checks no_shell joe_host
      ++ Stat ("/home/chroot" ++ SHELL)%string :: after /\
    forallb (fun e => negb (transition e)) (home_checks no_shell joe_host)
      = true /\
    ending no_shell = Exit 255 /\ exists msg, after = [Fprintf msg].
Proof.
  destruct (shell_checked_before_chroot no_shell joe_host "/home/chroot")
    as (after & Htrace & Hquiet & Hfatal).
  - reflexivity.
  - discriminate.
  - reflexivity.
  - vm_compute. reflexivity.
  - vm_compute. lia.
  - exists after. split; [exact Htrace|]. split; [exact Hquiet|].
    apply Hfatal. intros st_mode H. vm_compute in H. discriminate H.
Defined.

Lemma exec_environment_witness :
  ["HOME=/home/joe"; "PATH=/bin"]
    = store (w_envp joe_login) 0 ("HOME=" ++ pw_dir joe_jail)%string /\
  getenv_in ["HOME=/home/joe"; "PATH=/bin"] "HOME" = Some (pw_dir joe_jail) /\
  forall j, j <> 0%nat ->
    nth_error ["HOME=/home/joe"; "PATH=/bin"] j
    = nth_error (w_envp joe_login) j.
Proof.
  apply (exec_environment joe_login SHELL ["/bin/bash"]
           ["HOME=/home/joe"; "PATH=/bin"] joe_host "/home/chroot" joe_jail 0).
  - vm_compute. reflexivity.
  - reflexivity.
  - vm_compute. reflexivity.
  - unfold shell_fits. vm_compute. lia.
  - reflexivity.
  - apply c_string_check. reflexivity.
  - vm_compute. lia.
  - reflexivity.
Defined.

Lemma exec_arguments_witness :
  exists pw',
    inner_record zsh_user "/home/chroot" = Some pw' /\
    "/bin/bash" = SHELL /\
    ["/bin/zsh"; "-l"] = pw_shell pw' :: w_args zsh_user /\
    exists before,
      trace zsh_user = before ++
        [Execve SHELL (pw_shell pw' :: w_args zsh_user)
           ["PATH=/bin"; "HOME=/home/joe"]].
Proof.
  apply (exec_arguments zsh_user "/bin/bash" ["/bin/zsh"; "-l"]
           ["PATH=/bin"; "HOME=/home/joe"] joe_host "/home/chroot").
  - vm_compute. reflexivity.
  - reflexivity.
  - vm_compute. reflexivity.
  - unfold shell_fits. vm_compute. lia.
Defined.

Lemma relative_home_not_fatal_witness :
  let pw := mkpasswd 1000 "home/chroot/home/joe" "/usr/local/sbin/chrlogin" in
  let named := cstr (copy_home (w_junk relative_login 2) (pw_dir pw)) in
  (c_string (pw_dir pw) ->
   (String.length (pw_dir pw) < MAX_STRING - 1)%nat -> named = pw_dir pw) /\
  exists rest,
    trace relative_login =
      [Getuid; Geteuid; Getpwuid (target_uid relative_login);
       Fprintf (msg_not_absolute (w_argv0 relative_login) named); Stat named]
      ++ rest /\
    (derived_root relative_login CHROOT_LEVEL (pw_dir pw) = None ->
     ending relative_login = Exit 255 /\
     exists diag,
       rest = diag ++ [Fprintf (msg_too_short (w_argv0 relative_login) named
                                  CHROOT_LEVEL)]
       /\ forallb (fun e => negb (transition e)) diag = true) /\
    (forall jail,
       derived_root relative_login CHROOT_LEVEL (pw_dir pw) = Some jail ->
       exists chroot_dir diag after,
         cstr chroot_dir = jail /\
         rest = diag ++ Stat (shell_path relative_login chroot_dir) :: after /\
         forallb (fun e => negb (transition e)) diag = true).
Proof.
  apply (relative_home_not_fatal relative_login
           (mkpasswd 1000 "home/chroot/home/joe" "/usr/local/sbin/chrlogin")).
  - reflexivity.
  - discriminate.
  - reflexivity.
  - intros [rest H]. discriminate H.
Defined.

(** The run of the relative home, call by call. *)
Example relative_login_run :
  run relative_login =
  ([Getuid; Geteuid; Getpwuid 1000;
    Fprintf (msg_not_absolute "-chrlogin" "home/chroot/home/joe");
    Stat "home/chroot/home/joe"; Stat "home/chroot/home/bin/bash";
    Chdir "home/chroot/home"; Chroot "home/chroot/home"; Setuid 1000;
    Getpwuid 1000; Chdir "/home/joe"; Putenv "HOME=/home/joe";
    Execve "/bin/bash" ["/bin/bash"] ["HOME=/home/joe"; "PATH=/bin"]],
   Exec "/bin/bash" ["/bin/bash"] ["HOME=/home/joe"; "PATH=/bin"]).
Proof. vm_compute. reflexivity. Qed.

(** C2 as worded fails on its own example: the root derived from
    [/home/chroot/home/joe] at level 2 holds one separator after the
    leading one, not two, and is not the longest prefix with two. *)
Lemma claimed_prefix_is_not_derived :
  derived_root joe_login 2 "/home/chroot/home/joe" = Some "/home/chroot" /\
  interior_separators "/home/chroot" = 1%nat /\
  ~ longest_prefix interior_separators 2 "/home/chroot/home/joe" "/home/chroot".
Proof.
  split; [vm_compute; reflexivity|]. split; [reflexivity|].
  intros (_ & H & _). discriminate H.
Qed.

(** The longest prefix with two separators after the leading one is a
    level deeper than the jail. *)
Example claimed_prefix_is_deeper :
  longest_prefix interior_separators 2 "/home/chroot/home/joe"
    "/home/chroot/home".
Proof.
  split; [now exists "/joe"|]. split; [reflexivity|].
  intros r' [rest Hrest] Hr'.
  destruct (Nat.le_gt_cases (String.length r') 17) as [H|H]; [exact H|exfalso].
  assert (firstn 18 (chars r') = chars "/home/chroot/home/") as Hfirst.
  { apply (f_equal chars) in Hrest. rewrite chars_app in Hrest.
    apply (f_equal (firstn 18)) in Hrest.
    rewrite firstn_app in Hrest.
    replace (18 - List.length (chars r'))%nat with 0%nat in Hrest
      by (rewrite chars_length; lia).
    rewrite firstn_O, app_nil_r in Hrest. now rewrite <- Hrest. }
  unfold interior_separators in Hr'.
  rewrite <- (firstn_skipn 18 (chars r')), Hfirst in Hr'.
  simpl in Hr'. lia.
Qed.

(** C6 as worded fails for a jail root of 1018 characters: the one path
    examined for the shell is the jail root followed by the first six
    characters of [SHELL], 1024 characters in all, and the diagnostic names
    that path; the jail root followed by [SHELL] is never examined. *)
Lemma wide_jail_shell_unchecked :
  outer_record wide_jail_login
    = Some (mkpasswd 1000 wide_home "/usr/local/sbin/chrlogin") /\
  derived_root wide_jail_login CHROOT_LEVEL wide_home = Some wide_jail /\
  run wide_jail_login =
  ([Getuid; Geteuid; Getpwuid 1000; Stat wide_home;
    Fprintf (msg_no_home "-chrlogin" wide_home "File name too long");
    Stat (wide_jail ++ "/bin/b")%string;
    Fprintf (msg_no_shell "-chrlogin" (wide_jail ++ "/bin/b")
               "File name too long")],
   Exit 255) /\
  existsb (is_stat_of (wide_jail ++ SHELL)%string) (trace wide_jail_login)
    = false.
Proof.
  repeat split; vm_compute; reflexivity.
Qed.

(** C7 as worded fails for an inner home of 1280 characters: [HOME] in the
    environment of the shell holds its first 1019 characters. *)
Lemma long_home_cut_in_environment :
  inner_record deep_inner_home "/home/chroot"
    = Some (mkpasswd 1000 deep_home "/bin/bash") /\
  exists env,
    ending deep_inner_home = Exec SHELL ["/bin/bash"] env /\
    option_map String.length (getenv_in env "HOME") = Some 1019%nat /\
    String.length deep_home = 1280%nat /\
    env <> with_variable (w_envp deep_inner_home) "HOME" deep_home.
Proof.
  split; [vm_compute; reflexivity|].
  eexists. split; [vm_compute; reflexivity|].
  split; [vm_compute; reflexivity|]. split; [vm_compute; reflexivity|].
  intros H.
  apply (f_equal (fun v => option_map String.length (getenv_in v "HOME"))) in H.
  vm_compute in H. discriminate H.
Qed.

(** When no [HOME] is inherited, [putenv] moves [environ] to a new vector
    and leaves the one at [envp] as it was; [execve] is handed [envp], so
    the shell gets no [HOME] at all. *)
Lemma home_not_added :
  find_entry "HOME" (w_envp no_home_inherited) = None /\
  ending no_home_inherited = Exec SHELL ["/bin/bash"] ["PATH=/bin"] /\
  getenv_in ["PATH=/bin"] "HOME" = None /\
  with_variable (w_envp no_home_inherited) "HOME" "/home/joe"
    = ["PATH=/bin"; "HOME=/home/joe"].
Proof.
  repeat split; vm_compute; reflexivity.
Qed.

(** C4 on the code.  [setuid] fails and the run goes on: the lookup in the
    jail, the move to the inner home and [execve] follow, and the shell
    starts with effective uid 0 inside the jail. *)
Theorem failed_setuid_is_ignored :
  w_setuid setuid_fails
    (rooted_at (moved_to (proc0 setuid_fails) "/home/chroot") "/home/chroot")
    1000 = false /\
  run setuid_fails =
  ([Getuid; Geteuid; Getpwuid 1000; Stat "/home/chroot/home/joe";
    Stat "/home/chroot/bin/bash"; Chdir "/home/chroot";
    Chroot "/home/chroot"; Setuid 1000; Getpwuid 1000;
    Chdir "/home/joe"; Putenv "HOME=/home/joe";
    Execve "/bin/bash" ["/bin/bash"] ["HOME=/home/joe"; "PATH=/bin"]],
   Exec "/bin/bash" ["/bin/bash"] ["HOME=/home/joe"; "PATH=/bin"]) /\
  final_proc setuid_fails = mkproc 1000 0 "/home/chroot" "/home/joe".
Proof.
  repeat split; vm_compute; reflexivity.
Qed.

(** C5 on the code.  [execve] fails and returns; [main] returns 0, so the
    process ends with status 0. *)
Theorem failed_exec_exits_zero :
  run exec_fails =
  ([Getuid; Geteuid; Getpwuid 1000; Stat "/home/chroot/home/joe";
    Stat "/home/chroot/bin/bash"; Chdir "/home/chroot";
    Chroot "/home/chroot"; Setuid 1000; Getpwuid 1000;
    Chdir "/home/joe"; Putenv "HOME=/home/joe";
    Execve "/bin/bash" ["/bin/bash"] ["HOME=/home/joe"; "PATH=/bin"]],
   Exit 0).
Proof. vm_compute. reflexivity. Qed.

(** A home path with three separators, two of them past the buffer, is
    "too short". *)
Example far_separators_too_short :
  separators far_separators = 3%nat /\
  derived_root joe_login CHROOT_LEVEL far_separators = None.
Proof. split; vm_compute; reflexivity. Qed.

(** A path that fills the copy leaves [chroot_dir[MAX_STRING - 1]]
    unwritten; the walk reads that byte before it meets the sentinel.
    With a [/] there, a path of two separators yields a root: the path
    itself. *)
Example stray_byte_is_walked :
  String.length tight_home = 1023%nat /\
  separators tight_home = 2%nat /\
  derived_root stray_slash CHROOT_LEVEL tight_home = Some tight_home /\
  derived_root joe_login CHROOT_LEVEL tight_home = None.
Proof. repeat split; vm_compute; reflexivity. Qed.


(** * Further properties *)

(** ** The derived root, whatever the home path *)

(** What line 100-101 leave in [chroot_dir]: a string of at most
    [MAX_STRING] bytes whose first [MAX_STRING - 1] are the start of the
    home path. *)
Lemma copy_home_shape (junk : nat -> ascii) (home : string) :
  c_string home ->
  exists l rest,
    copy_home junk home = l ++ nul :: rest /\ ~ In nul l /\
    (List.length l <= MAX_STRING)%nat /\
    exists tail, chars home = firstn (MAX_STRING - 1) l ++ tail.
Proof.
  intros Hc.
  destruct (Nat.lt_ge_cases (String.length home) (MAX_STRING - 1)) as [Hlen|Hlen].
  - destruct (copy_home_holds junk home Hlen) as [rest Hbuf].
    exists (chars home), rest. split; [exact Hbuf|]. split; [exact Hc|].
    split; [rewrite chars_length; unfold MAX_STRING in *; lia|].
    exists []. rewrite firstn_all2 by (rewrite chars_length; lia).
    now rewrite app_nil_r.
  - rewrite copy_home_eq.
    assert (firstn (MAX_STRING - 1) (chars home ++ repeat nul (MAX_STRING - 1))
            = firstn (MAX_STRING - 1) (chars home)) as ->.
    { rewrite firstn_app.
      replace (MAX_STRING - 1 - List.length (chars home))%nat with 0%nat
        by (rewrite chars_length; lia).
      now rewrite firstn_O, app_nil_r. }
    set (d := firstn (MAX_STRING - 1) (chars home)).
    assert (List.length d = (MAX_STRING - 1)%nat) as Hd
      by (unfold d; rewrite length_firstn, chars_length; lia).
    assert (~ In nul d) as Hnul by (apply firstn_no_nul; exact Hc).
    destruct (Ascii.eqb_spec (junk (MAX_STRING - 1)%nat) nul) as [Hj|Hj].
    + exists d, [nul]. rewrite Hj. split; [reflexivity|]. split; [exact Hnul|].
      split; [rewrite Hd; unfold MAX_STRING; lia|].
      exists (skipn (MAX_STRING - 1) (chars home)).
      rewrite firstn_all2 by lia. unfold d. now rewrite firstn_skipn.
    + exists (d ++ [junk (MAX_STRING - 1)%nat]), [].
      split; [now rewrite <- app_assoc|]. split.
      * intros Hin. apply in_app_or in Hin as [Hin|[Hin|[]]];
          [now apply Hnul | now apply Hj].
      * split; [rewrite length_app, Hd; unfold MAX_STRING; simpl; lia|].
        exists (skipn (MAX_STRING - 1) (chars home)).
        rewrite firstn_app, Hd, Nat.sub_diag, firstn_O, app_nil_r.
        rewrite firstn_all2 by lia. unfold d. now rewrite firstn_skipn.
Qed.

(** C-level facts about the root the walk leaves, for any home path and
    any stack content. *)
Lemma extract_fits (junk : nat -> ascii) (level : Z) (home : string)
    (chroot_dir : buffer) (cnt : Z) :
  0 <= level -> c_string home ->
  extract_chroot_dir level (copy_home junk home) = (chroot_dir, cnt) ->
  level <= cnt ->
  is_prefix (cstr chroot_dir) home /\
  (String.length (cstr chroot_dir) < MAX_STRING)%nat /\
  separators (cstr chroot_dir) = Z.to_nat level.
Proof.
  intros Hlevel Hc Hex Hcnt.
  destruct (copy_home_shape junk home Hc)
    as (l & rest & Hbuf & Hnul & Hlen & tail & Htail).
  rewrite Hbuf, extract_chroot_dir_spec in Hex by assumption.
  destruct (nth_sep (Z.to_nat level) l) as [i|] eqn:Hi.
  - injection Hex as <- <-.
    destruct (nth_sep_some _ _ _ Hi) as (Hlt & Hnth & Hcount).
    rewrite cstr_app_nul by (now apply firstn_no_nul).
    assert (firstn i l = firstn i (firstn (MAX_STRING - 1) l)) as Hfirst
      by (rewrite firstn_firstn; f_equal; unfold MAX_STRING in *; lia).
    split; [|split].
    + apply is_prefix_chars.
      exists (skipn i (firstn (MAX_STRING - 1) l) ++ tail).
      rewrite chars_text, Htail, Hfirst, app_assoc.
      now rewrite firstn_skipn.
    + rewrite <- chars_length, chars_text, length_firstn. lia.
    + unfold separators. now rewrite chars_text.
  - injection Hex as <- <-. apply nth_sep_none in Hi. lia.
Qed.

(** X1.  The jail root derived from any home path is a prefix of that
    path, fits the array with its terminator, and holds exactly [level]
    separators. *)
Theorem derived_root_is_prefix (w : world) (level : Z) (home jail : string) :
  0 <= level -> c_string home ->
  derived_root w level home = Some jail ->
  is_prefix jail home /\
  (String.length jail < MAX_STRING)%nat /\
  separators jail = Z.to_nat level /\
  c_string jail.
Proof.
  intros Hlevel Hc Hd.
  apply derived_root_inv in Hd as (cd & cnt & Hex & Hcnt & ->).
  apply Z.ltb_ge in Hcnt.
  destruct (extract_fits _ _ _ _ _ Hlevel Hc Hex Hcnt) as (H1 & H2 & H3).
  repeat split; try assumption. apply cstr_c_string.
Qed.

Lemma nth_sep_app (a b : list ascii) :
  nth_sep (count_sep a) (a ++ slash :: b) = Some (List.length a).
Proof.
  induction a as [|c a IH]; simpl; [reflexivity|].
  destruct (Ascii.eqb c slash); simpl; now rewrite IH.
Qed.

Lemma c_string_app (a b : string) :
  c_string a -> c_string b -> c_string (a ++ b)%string.
Proof.
  unfold c_string. rewrite chars_app. intros Ha Hb Hin.
  apply in_app_or in Hin as [Hin|Hin]; tauto.
Qed.

(** X2.  Join and derive: a home path made of a root with [level] separators,
    a separator and any tail gives that root back, provided it fits. *)
Theorem derivation_inverts_join (w : world) (level : Z) (jail tail : string) :
  0 <= level -> c_string jail -> c_string tail ->
  separators jail = Z.to_nat level ->
  (String.length jail + 1 + String.length tail < MAX_STRING - 1)%nat ->
  derived_root w level (jail ++ String slash tail) = Some jail.
Proof.
  intros Hlevel Hj Ht Hsep Hlen.
  set (home := (jail ++ String slash tail)%string).
  assert (String.length home = (String.length jail + 1 + String.length tail)%nat)
    as Hhome.
  { unfold home. rewrite <- !chars_length, chars_app, length_app. simpl. lia. }
  assert (c_string home) as Hc.
  { apply c_string_app; [exact Hj|]. unfold c_string. simpl.
    intros [H|H]; [discriminate H | now apply Ht]. }
  destruct (copy_home_holds (w_junk w 2) home) as [rest Hbuf]; [lia|].
  unfold derived_root, jail_root.
  rewrite Hbuf, extract_chroot_dir_spec by assumption.
  unfold home. rewrite !chars_app.
  change (chars (String slash tail)) with (slash :: chars tail).
  unfold separators in Hsep. rewrite <- Hsep, nth_sep_app.
  cbv [when bind ret]. rewrite Z.ltb_irrefl.
  rewrite firstn_app, Nat.sub_diag, firstn_O, app_nil_r, firstn_all.
  rewrite cstr_app_nul by exact Hj. now rewrite text_chars.
Qed.

(** ** The buffers, whatever their input *)

(** X3.  The path examined at line 138 is the jail root followed by as much of
    [SHELL] as the array has room for; it is never longer than the array. *)
Theorem shell_path_shape (w : world) (chroot_dir : buffer) :
  (String.length (cstr chroot_dir) < MAX_STRING)%nat ->
  shell_path w chroot_dir =
    (cstr chroot_dir
     ++ cut (MAX_STRING - String.length (cstr chroot_dir)) SHELL)%string /\
  (String.length (shell_path w chroot_dir) <= MAX_STRING)%nat.
Proof.
  intros Hfit. unfold shell_path, shell_buffer.
  set (shell := strncpy (auto_array (w_junk w 1)) (cstr chroot_dir) MAX_STRING).
  assert (List.length shell = frame_size) as Hlen
    by (unfold shell, strncpy; now rewrite write_at_length, auto_array_length).
  assert (cstr shell = cstr chroot_dir) as Hshell.
  { apply strncpy_cstr; [apply cstr_c_string | lia |].
    rewrite auto_array_length. unfold frame_size. lia. }
  assert (strlen shell = String.length (cstr chroot_dir)) as Hstrlen
    by now rewrite strlen_cstr, Hshell.
  rewrite Hstrlen, size_sub_fits by (exact MAX_STRING_size || lia).
  assert (cstr (strncat shell SHELL (MAX_STRING - String.length (cstr chroot_dir)))
          = (cstr chroot_dir
             ++ cut (MAX_STRING - String.length (cstr chroot_dir)) SHELL)%string)
    as Heq.
  { rewrite strncat_cstr by (rewrite Hlen, Hstrlen; unfold frame_size; lia).
    rewrite Hshell. f_equal. unfold cut.
    apply cstr_no_nul, firstn_no_nul, SHELL_c_string. }
  split; [exact Heq|]. rewrite Heq.
  rewrite <- !chars_length, chars_app, length_app. unfold cut.
  rewrite chars_text, length_firstn, !chars_length. lia.
Qed.

(** X4.  The entry handed to [putenv] is [HOME=] followed by the first
    [MAX_STRING - 5] characters of the inner home path; it is never longer
    than the array. *)
Theorem home_entry_shape (w : world) (dir : string) :
  c_string dir ->
  home_entry w dir = ("HOME=" ++ cut (MAX_STRING - 5) dir)%string /\
  (String.length (home_entry w dir) <= MAX_STRING)%nat.
Proof.
  intros Hc.
  assert (home_entry w dir = ("HOME=" ++ cut (MAX_STRING - 5) dir)%string)
    as Heq.
  { rewrite home_entry_eq. f_equal. unfold cut.
    apply cstr_no_nul, firstn_no_nul, Hc. }
  split; [exact Heq|]. rewrite Heq. unfold cut.
  rewrite <- chars_length, chars_app, length_app, chars_text, length_firstn.
  change (List.length (chars "HOME=")) with 5%nat.
  unfold MAX_STRING. lia.
Qed.

(** ** The uid in an [int] *)

(** X5.  [real_user] holds the uid in an [int]: handed back to [getpwuid] and
    [setuid] it is the uid again, also for uids from [2^31] on, and it is 0
    only for uid 0. *)
Theorem real_user_round_trip (u : Z) :
  uid_t u ->
  uid_of_int (int_of_uid u) = u /\
  (int_of_uid u = 0 <-> u = 0) /\
  (2 ^ 31 <= u -> int_of_uid u < 0).
Proof.
  unfold uid_t, uid_of_int, int_of_uid.
  change (2 ^ 31) with 2147483648. change (2 ^ 32) with 4294967296.
  intros H. Z.to_euclidean_division_equations. lia.
Qed.

(** ** Where a run stops *)

(** Unfold the landmarks of a run that got to line 152, and put the facts
    in the form the run tests them. *)
Ltac checked H :=
  destruct H as (?He & ?Hr & ?Ho & (?cnt & ?Hex & ?Hcnt) & (?m & ?Hs & ?Hreg));
  apply Z.eqb_eq in He; apply Z.eqb_neq in Hr; apply Z.ltb_ge in Hcnt.

(** Run on: use what is known where it decides the next step, split
    otherwise. *)
Ltac assume :=
  match goal with
  | |- (?l = _) -> _ =>
      lazymatch l with
      | context [match _ with _ => _ end] => fail
      | _ => intro
      end
  end.

(** Where the jail root fits [shell], line 136 leaves [chroot_dir] as it
    was. *)
Ltac fitting :=
  match goal with
  | H : after_shell _ _ = _ |- _ => progress rewrite H
  end.

Ltac advance :=
  repeat first [ assume | progress (known; run_main) | fitting | branch ].

Ltac unfold_landmarks :=
  unfold jail_calls, checked_calls;
  cbv beta iota zeta delta
    [real_user target_uid proc0 moved_to rooted_at after_setuid jailed
     outer_record inner_record shell_path home_entry p_ruid p_euid p_root
     p_cwd] in *.

(** X6.  Lines 91-95.  With the uids as they must be and no host record, the
    run is the lookup and one diagnostic that gives the uid, status 255. *)
Theorem unknown_user_refused (w : world) :
  w_euid w = 0 -> real_user w <> 0 -> outer_record w = None ->
  run w =
  ([Getuid; Geteuid; Getpwuid (target_uid w);
    Fprintf (msg_no_user (w_argv0 w) (real_user w))],
   Exit 255).
Proof.
  intros He Hr Ho. apply Z.eqb_eq in He. apply Z.eqb_neq in Hr.
  unfold_landmarks. run_main. known. run_main. reflexivity.
Qed.

(** X7.  Lines 125-130.  When the walk ends below the level, the buffer is as
    line 100 left it: the run ends with the diagnostic that names it, status
    255, and the shell is not looked for. *)
Theorem short_home_refused (w : world) (pw : passwd) :
  w_euid w = 0 -> real_user w <> 0 -> outer_record w = Some pw ->
  derived_root w CHROOT_LEVEL (pw_dir pw) = None ->
  run w =
  (home_checks w pw ++
   [Fprintf (msg_too_short (w_argv0 w)
               (cstr (copy_home (w_junk w 2) (pw_dir pw))) CHROOT_LEVEL)],
   Exit 255).
Proof.
  intros He Hr Ho Hd. apply Z.eqb_eq in He. apply Z.eqb_neq in Hr.
  unfold derived_root in Hd. unfold_landmarks.
  revert He Hr Ho Hd. run_main. advance.
  all: try discriminate.
  all: match goal with
       | H : extract_chroot_dir _ _ = (?b, ?z), H' : (?z <? _) = true |- _ =>
           apply extract_unbroken in H; [subst b | now apply Z.ltb_lt in H']
       end.
  all: reflexivity.
Qed.

(** X8.  Lines 138-142.  When the path of the shell cannot be examined the run
    ends with the diagnostic that gives the path and the error, status 255;
    the process has not moved. *)
Theorem missing_shell_refused (w : world) (pw : passwd) (chroot_dir : buffer)
    (cnt : Z) (err : string) :
  w_euid w = 0 -> real_user w <> 0 -> outer_record w = Some pw ->
  extract_chroot_dir CHROOT_LEVEL (copy_home (w_junk w 2) (pw_dir pw))
    = (chroot_dir, cnt) ->
  CHROOT_LEVEL <= cnt ->
  w_stat w (proc0 w) (shell_path w chroot_dir) = StatFail err ->
  run w =
  (checked_calls w pw chroot_dir ++
   [Fprintf (msg_no_shell (w_argv0 w) (shell_path w chroot_dir) err)],
   Exit 255).
Proof.
  intros He Hr Ho Hex Hcnt Hs.
  apply Z.eqb_eq in He. apply Z.eqb_neq in Hr. apply Z.ltb_ge in Hcnt.
  unfold_landmarks. revert He Hr Ho Hex Hcnt Hs. run_main.
  advance. all: reflexivity.
Qed.

(** X9.  Lines 143-147.  When the path of the shell is there but is not a
    regular file the run ends with a diagnostic of its own, status 255. *)
Theorem irregular_shell_refused (w : world) (pw : passwd)
    (chroot_dir : buffer) (cnt : Z) (st_mode : Z) :
  w_euid w = 0 -> real_user w <> 0 -> outer_record w = Some pw ->
  extract_chroot_dir CHROOT_LEVEL (copy_home (w_junk w 2) (pw_dir pw))
    = (chroot_dir, cnt) ->
  CHROOT_LEVEL <= cnt ->
  w_stat w (proc0 w) (shell_path w chroot_dir) = StatOk st_mode ->
  S_ISREG st_mode = false ->
  run w =
  (checked_calls w pw chroot_dir ++
   [Fprintf (msg_shell_not_regular (w_argv0 w) (shell_path w chroot_dir))],
   Exit 255).
Proof.
  intros He Hr Ho Hex Hcnt Hs Hreg.
  apply Z.eqb_eq in He. apply Z.eqb_neq in Hr. apply Z.ltb_ge in Hcnt.
  unfold_landmarks. revert He Hr Ho Hex Hcnt Hs Hreg. run_main.
  advance. all: reflexivity.
Qed.

(** X10.  Lines 152-157.  When [chdir] to the jail root fails the run ends
    with a diagnostic and status 255; [chroot] is not called. *)
Theorem closed_jail_refused (w : world) (pw : passwd) (chroot_dir : buffer)
    (err : string) :
  passes_checks w pw chroot_dir ->
  shell_fits (cstr chroot_dir) ->
  w_chdir w (proc0 w) (cstr chroot_dir) = SysFail err ->
  run w =
  (checked_calls w pw chroot_dir ++
   [Chdir (cstr chroot_dir);
    Fprintf (msg_chdir_root (w_argv0 w) (cstr chroot_dir) err)],
   Exit 255).
Proof.
  intros H Hfit Hcd.
  apply (after_shell_fits (w_junk w 1)) in Hfit. checked H. unfold_landmarks.
  revert He Hr Ho Hex Hcnt Hs Hreg Hcd. run_main.
  advance. all: reflexivity.
Qed.

(** X11.  Lines 158-163.  When [chroot] fails the run ends with a diagnostic
    and status 255; [setuid] is not called. *)
Theorem failed_chroot_refused (w : world) (pw : passwd) (chroot_dir : buffer)
    (err : string) :
  passes_checks w pw chroot_dir ->
  shell_fits (cstr chroot_dir) ->
  w_chdir w (proc0 w) (cstr chroot_dir) = SysOk ->
  w_chroot w (moved_to (proc0 w) (cstr chroot_dir)) (cstr chroot_dir)
    = SysFail err ->
  run w =
  (checked_calls w pw chroot_dir ++
   [Chdir (cstr chroot_dir); Chroot (cstr chroot_dir);
    Fprintf (msg_chroot (w_argv0 w) (cstr chroot_dir) err)],
   Exit 255).
Proof.
  intros H Hfit Hcd Hcr.
  apply (after_shell_fits (w_junk w 1)) in Hfit. checked H. unfold_landmarks.
  revert He Hr Ho Hex Hcnt Hs Hreg Hcd Hcr. run_main.
  advance. all: reflexivity.
Qed.

(** X12.  Lines 169-173.  When the jail's database has no record of the uid
    the run ends, after [setuid], with a diagnostic and status 255. *)
Theorem unknown_in_jail_refused (w : world) (pw : passwd)
    (chroot_dir : buffer) :
  enters_jail w pw chroot_dir ->
  shell_fits (cstr chroot_dir) ->
  inner_record w (cstr chroot_dir) = None ->
  run w =
  (jail_calls w pw chroot_dir ++
   [Fprintf (msg_no_jail_user (w_argv0 w) (real_user w))],
   Exit 255).
Proof.
  intros (H & Hcd & Hcr) Hfit Hin.
  apply (after_shell_fits (w_junk w 1)) in Hfit. checked H. unfold_landmarks.
  revert He Hr Ho Hex Hcnt Hs Hreg Hcd Hcr Hin. run_main.
  advance. all: reflexivity.
Qed.

(** X13.  Lines 178-183.  When [chdir] to the inner home fails the run
    ends with a diagnostic and status 255; neither [putenv] nor [execve]
    is called. *)
Theorem missing_inner_home_refused (w : world) (pw : passwd)
    (chroot_dir : buffer) (pw' : passwd) (err : string) :
  enters_jail w pw chroot_dir ->
  shell_fits (cstr chroot_dir) ->
  inner_record w (cstr chroot_dir) = Some pw' ->
  w_chdir w (jailed w (cstr chroot_dir)) (pw_dir pw') = SysFail err ->
  run w =
  (jail_calls w pw chroot_dir ++
   [Chdir (pw_dir pw');
    Fprintf (msg_chdir_home (w_argv0 w) (pw_dir pw') (real_user w) err)],
   Exit 255).
Proof.
  intros (H & Hcd & Hcr) Hfit Hin Hhome.
  apply (after_shell_fits (w_junk w 1)) in Hfit. checked H. unfold_landmarks.
  revert He Hr Ho Hex Hcnt Hs Hreg Hcd Hcr Hin Hhome. run_main.
  advance. all: reflexivity.
Qed.

(** X14.  Lines 187-198.  Once the inner home is entered nothing can stop the
    run before [execve]: the run is [putenv] and [execve], and ends in the
    shell, or with status 0 if [execve] returns. *)
Theorem inner_home_leads_to_exec (w : world) (pw : passwd)
    (chroot_dir : buffer) (pw' : passwd) :
  enters_jail w pw chroot_dir ->
  shell_fits (cstr chroot_dir) ->
  inner_record w (cstr chroot_dir) = Some pw' ->
  w_chdir w (jailed w (cstr chroot_dir)) (pw_dir pw') = SysOk ->
  let argv := pw_shell pw' :: w_args w in
  let env := envp_after_putenv (w_envp w) (home_entry w (pw_dir pw')) in
  run w =
  (jail_calls w pw chroot_dir ++
   [Chdir (pw_dir pw'); Putenv (home_entry w (pw_dir pw'));
    Execve SHELL argv env],
   if w_execve w (moved_to (jailed w (cstr chroot_dir)) (pw_dir pw'))
        SHELL argv env
   then Exec SHELL argv env else Exit 0).
Proof.
  intros (H & Hcd & Hcr) Hfit Hin Hhome argv env.
  apply (after_shell_fits (w_junk w 1)) in Hfit. subst argv env.
  checked H. unfold_landmarks.
  revert He Hr Ho Hex Hcnt Hs Hreg Hcd Hcr Hin Hhome. run_main.
  advance.
  all: cbn [nth store app] in *; change (exit_status 0) with 0; congruence.
Qed.


(** ** What holds of every run *)

(** X15.  The two ways [main] ends without a shell.  Status 255 comes with a
    diagnostic as the last thing done, and [execve] was not called; status 0
    comes only from [execve] having returned, as the last call.  No other
    status is ever given. *)
Theorem exit_status_law (w : world) (tr : list event) (status : Z) :
  run w = (tr, Exit status) ->
  (status = 255 /\
   (exists msg, last_call tr = Some (Fprintf msg)) /\
   existsb is_execve tr = false) \/
  (status = 0 /\
   exists argv env, last_call tr = Some (Execve SHELL argv env)).
Proof.
  run_main. repeat branch.
  all: cbn [app]; intros [= <- <-].
  all: first [ left; split; [reflexivity|]; split;
               [eexists; reflexivity | reflexivity]
             | right; split; [reflexivity|]; do 2 eexists; reflexivity ].
Qed.

(** X16.  The calls of a run, diagnostics left out, are always a beginning of
    one fixed list: no call is made twice where [main] has it once, none out
    of order, and nothing follows [execve]. *)
Theorem call_schedule (w : world) :
  calls (trace w) = firstn (List.length (calls (trace w))) schedule.
Proof.
  unfold trace. destruct (run w) as [tr o] eqn:Hrun. cbn [fst].
  revert Hrun. run_main. repeat branch.
  all: cbn [app]; intros [= <- <-]; reflexivity.
Qed.

(** X17.  [chroot] is called only by a process that passed every check:
    the uids, the host record, the derivation, the shell under the derived
    root being a regular file; and only on the directory it has just moved
    to, which is the derived root when that root fits [shell] together
    with [SHELL]. *)
Theorem chroot_is_guarded (w : world) (path : string) :
  In (Chroot path) (trace w) ->
  exists pw chroot_dir,
    passes_checks w pw chroot_dir /\
    w_chdir w (proc0 w) path = SysOk /\
    (shell_fits (cstr chroot_dir) -> path = cstr chroot_dir).
Proof.
  unfold trace. destruct (run w) as [tr o] eqn:Hrun. cbn [fst].
  revert Hrun. unfold passes_checks. run_main. repeat branch.
  all: cbn [app]; intros [= <- <-] Hin; try absent.
  all: cbn [In] in Hin;
    repeat match type of Hin with
           | _ \/ _ => destruct Hin as [Hin|Hin]
           end; try discriminate Hin; try contradiction.
  all: injection Hin as <-.
  all: do 2 eexists.
  all: repeat match goal with
              | |- _ /\ _ => split
              | |- exists _, _ => eexists
              end.
  all: first [ eassumption | reflexivity | now apply Z.eqb_eq
             | now apply Z.eqb_neq | now apply Z.ltb_ge
             | intros Hfit; now rewrite after_shell_fits ].
Qed.

(** ** The environment, where no [HOME] is inherited *)

Lemma find_entry_none (name : string) (v : vector) :
  find_entry name v = None -> find (names name) v = None.
Proof.
  induction v as [|e v IH]; simpl; [reflexivity|].
  destruct (names name e); [discriminate|].
  destruct (find_entry name v); [discriminate|]. intros _. now apply IH.
Qed.

Lemma find_app_new (name : string) (v : vector) (e : string) :
  find_entry name v = None -> names name e = true ->
  find (names name) (v ++ [e]) = Some e.
Proof.
  intros Hnone He. induction v as [|x v IH]; simpl in *; [now rewrite He|].
  destruct (names name x); [discriminate|].
  destruct (find_entry name v); [discriminate|]. now apply IH.
Qed.

(** X18.  Line 196 hands [execve] the vector [main] was started with.  When
    that vector holds no [HOME] entry, [putenv] puts the new entry in a vector
    of its own: the shell is started with the inherited environment as it was,
    and finds no [HOME] in it. *)
Theorem inherited_environment_without_HOME (w : world) (path : string)
    (argv : list string) (env : vector) :
  ending w = Exec path argv env ->
  find_entry "HOME" (w_envp w) = None ->
  env = w_envp w /\ getenv_in env "HOME" = None.
Proof.
  intros Hend Hnone. unfold ending in Hend.
  destruct (run w) as [tr o] eqn:Hrun. cbn [snd] in Hend. subst o.
  apply exec_inversion in Hrun
    as (pw & cd & cnt & m & pw' & _ & _ & _ & _ & _ & _ & _ & _ & _ & _ & _
        & _ & _ & -> & _).
  unfold envp_after_putenv.
  destruct (home_entry_names_HOME w (pw_dir pw')) as [-> ->].
  rewrite Hnone. split; [reflexivity|].
  unfold getenv_in. now rewrite find_entry_none.
Qed.

(** X19.  Lines 191-193.  In the process's own environment [HOME] is, once
    [putenv] is done, the inner home path as far as the array takes it,
    whether or not a [HOME] was inherited. *)
Theorem environ_holds_HOME (w : world) (pw : passwd) (chroot_dir : buffer)
    (pw' : passwd) :
  enters_jail w pw chroot_dir ->
  shell_fits (cstr chroot_dir) ->
  inner_record w (cstr chroot_dir) = Some pw' ->
  w_chdir w (jailed w (cstr chroot_dir)) (pw_dir pw') = SysOk ->
  c_string (pw_dir pw') ->
  getenv_in (final_environ w) "HOME" = Some (cut (MAX_STRING - 5) (pw_dir pw')).
Proof.
  intros (H & Hcd & Hcr) Hfit Hin Hhome Hc.
  apply (after_shell_fits (w_junk w 1)) in Hfit.
  assert (cstr (home_buffer (w_junk w 0) (pw_dir pw'))
          = ("HOME=" ++ cut (MAX_STRING - 5) (pw_dir pw'))%string) as Hentry.
  { rewrite home_buffer_cstr. f_equal. unfold cut.
    apply cstr_no_nul, firstn_no_nul, Hc. }
  checked H. unfold final_environ. unfold_landmarks.
  revert He Hr Ho Hex Hcnt Hs Hreg Hcd Hcr Hin Hhome. run_main.
  advance.
  all: cbn [nth store app List.length] in *; rewrite Hentry.
  all: try (now apply getenv_HOME_after_store).
  all: unfold getenv_in; rewrite find_app_new by (assumption || reflexivity).
  all: simpl; rewrite Nat.sub_0_r; now rewrite substring_all.
Qed.

(** ** The process the shell runs in *)

(** X20.  When the run gets to [execve], the process has the jail root as its
    root and the inner home as its working directory.  Its uids are those line
    164 left: both the invoker's if [setuid] succeeded, and as they were at
    the start if it failed. *)
Theorem shell_process (w : world) (pw : passwd) (chroot_dir : buffer)
    (pw' : passwd) :
  enters_jail w pw chroot_dir ->
  shell_fits (cstr chroot_dir) ->
  inner_record w (cstr chroot_dir) = Some pw' ->
  w_chdir w (jailed w (cstr chroot_dir)) (pw_dir pw') = SysOk ->
  let p := final_proc w in
  let at_setuid := rooted_at (moved_to (proc0 w) (cstr chroot_dir))
                     (cstr chroot_dir) in
  p_root p = cstr chroot_dir /\ p_cwd p = pw_dir pw' /\
  (w_setuid w at_setuid (target_uid w) = true ->
   p_ruid p = target_uid w /\ p_euid p = target_uid w) /\
  (w_setuid w at_setuid (target_uid w) = false ->
   p_ruid p = w_ruid w /\ p_euid p = 0).
Proof.
  intros (H & Hcd & Hcr) Hfit Hin Hhome p at_setuid.
  apply (after_shell_fits (w_junk w 1)) in Hfit. subst p at_setuid.
  checked H. unfold final_proc. unfold_landmarks.
  revert He Hr Ho Hex Hcnt Hs Hreg Hcd Hcr Hin Hhome. run_main.
  advance.
  all: apply Z.eqb_eq in He; cbn [p_root p_cwd p_ruid p_euid].
  all: repeat split; try reflexivity; try congruence.
Qed.

(** ** Checks that only warn *)

(** X21.  Lines 108-111.  When the home directory of the host record cannot be
    examined, the run prints the diagnostic with the error and goes on: the
    next calls are the check of the shell and, when that is passed, [chdir] to
    the jail root. *)
Theorem missing_home_not_fatal (w : world) (pw : passwd)
    (chroot_dir : buffer) (err : string) :
  passes_checks w pw chroot_dir ->
  shell_fits (cstr chroot_dir) ->
  let named := cstr (copy_home (w_junk w 2) (pw_dir pw)) in
  w_stat w (proc0 w) named = StatFail err ->
  exists before after,
    trace w =
      before ++
      [Stat named; Fprintf (msg_no_home (w_argv0 w) named err);
       Stat (shell_path w chroot_dir); Chdir (cstr chroot_dir)] ++ after /\
    forallb (fun e => negb (transition e)) before = true.
Proof.
  intros H Hfit named Hhome.
  apply (after_shell_fits (w_junk w 1)) in Hfit. subst named. checked H.
  unfold trace. destruct (run w) as [tr o] eqn:Hrun. cbn [fst].
  unfold_landmarks.
  revert Hrun. revert He Hr Ho Hex Hcnt Hs Hreg Hhome. run_main.
  advance.
  all: match goal with
       | H : (_, _) = (_, _) |- _ => cbn [app] in H; injection H as <- <-
       end.
  all: first [ eexists [_; _; _]; eexists; split; reflexivity
             | eexists [_; _; _; _]; eexists; split; reflexivity ].
Qed.

(** ** The test of the file type *)

(** X22.  Line 143 looks at the type bits of [st_mode] alone: whatever
    the permission bits are, execute permission included, the verdict is
    the same. *)
Theorem S_ISREG_ignores_permissions (st_mode perms : Z) :
  0 <= perms <= S_IALLUGO ->
  S_ISREG (Z.lxor st_mode perms) = S_ISREG st_mode.
Proof.
  intros Hp. unfold S_ISREG. f_equal.
  apply Z.bits_inj'. intros n Hn.
  rewrite !Z.land_spec, Z.lxor_spec.
  destruct (Z.lt_ge_cases n 12) as [Hlt|Hge].
  - assert (Z.testbit S_IFMT n = false) as ->;
      [|now rewrite !andb_false_r].
    change S_IFMT with (15 * 2 ^ 12). now apply Z.mul_pow2_bits_low.
  - assert (Z.testbit perms n = false) as ->; [|now rewrite xorb_false_r].
    destruct (Z.eq_dec perms 0) as [->|Hnz]; [apply Z.bits_0|].
    apply Z.bits_above_log2; [lia|].
    apply Z.lt_le_trans with 12; [|exact Hge].
    apply Z.log2_lt_pow2; [lia|]. unfold S_IALLUGO in Hp.
    change (2 ^ 12) with 4096. lia.
Qed.

(** ** Stores at the end of the arrays *)

(** A cell of a buffer after a store that fits. *)
Lemma nth_write_at (buf : buffer) (i : nat) (data : list ascii) (k : nat)
    (d : ascii) :
  (i + List.length data <= List.length buf)%nat ->
  nth k (write_at buf i data) d =
  if (k <? i)%nat then nth k buf d
  else if (k <? i + List.length data)%nat then nth (k - i) data d
  else nth k buf d.
Proof.
  intros Hfit. rewrite write_at_inside by exact Hfit.
  assert (List.length (firstn i buf) = i) as Hi
    by (apply firstn_length_le; lia).
  destruct (Nat.ltb_spec k i) as [Hk|Hk].
  - rewrite app_nth1 by lia. rewrite nth_firstn.
    destruct (Nat.ltb_spec k i); [reflexivity | lia].
  - rewrite app_nth2 by lia. rewrite Hi.
    destruct (Nat.ltb_spec k (i + List.length data)) as [Hd|Hd].
    + now rewrite app_nth1 by lia.
    + rewrite app_nth2 by lia. rewrite nth_skipn. f_equal. lia.
Qed.

(** X23.  Lines 100-101.  Whatever the home path, the last byte of
    [chroot_dir] is never written, and the terminator of line 101 lands in
    the byte after the array. *)
Theorem sentinel_falls_past_array (junk : nat -> ascii) (home : string) :
  nth (MAX_STRING - 1) (copy_home junk home) nul = junk (MAX_STRING - 1)%nat /\
  spill (copy_home junk home) = nul /\
  List.length (copy_home junk home) = frame_size.
Proof.
  unfold spill. rewrite copy_home_eq.
  pose proof (firstn_pad_length (MAX_STRING - 1) (chars home) nul) as Hlen.
  split; [|split].
  - rewrite app_nth2 by lia. rewrite Hlen, Nat.sub_diag. reflexivity.
  - rewrite app_nth2 by (rewrite Hlen; unfold MAX_STRING; lia).
    rewrite Hlen. reflexivity.
  - rewrite length_app, Hlen. reflexivity.
Qed.

(** X24.  Lines 135-136.  The terminator that [strncat] puts after the
    path of the shell stays inside [shell] when the jail root and [SHELL]
    are shorter than the array together; for a longer jail root it lands
    in the byte after the array. *)
Theorem shell_terminator (junk : nat -> ascii) (chroot_dir : buffer) :
  (String.length (cstr chroot_dir) < MAX_STRING)%nat ->
  spill (shell_buffer junk chroot_dir) =
  if (String.length (cstr chroot_dir) + String.length SHELL <? MAX_STRING)%nat
  then junk MAX_STRING else nul.
Proof.
  intros Hfit. unfold spill, shell_buffer.
  set (shell := strncpy (auto_array junk) (cstr chroot_dir) MAX_STRING).
  assert (List.length shell = frame_size) as Hlen
    by (unfold shell, strncpy; now rewrite write_at_length, auto_array_length).
  assert (cstr shell = cstr chroot_dir) as Hshell.
  { apply strncpy_cstr; [apply cstr_c_string | lia |].
    rewrite auto_array_length. unfold frame_size. lia. }
  assert (strlen shell = String.length (cstr chroot_dir)) as Hstrlen
    by now rewrite strlen_cstr, Hshell.
  assert (nth MAX_STRING shell nul = junk MAX_STRING) as Hold.
  { unfold shell, strncpy. rewrite nth_write_at
      by (rewrite firstn_pad_length, auto_array_length; unfold frame_size; lia).
    rewrite firstn_pad_length. simpl Nat.ltb.
    rewrite Nat.ltb_irrefl. apply auto_array_nth. unfold frame_size. lia. }
  rewrite Hstrlen, size_sub_fits by (exact MAX_STRING_size || lia).
  set (L := String.length (cstr chroot_dir)) in *.
  unfold strncat. rewrite Hstrlen.
  assert (List.length (firstn (MAX_STRING - L) (chars SHELL) ++ [nul])
          = S (Nat.min (MAX_STRING - L) (String.length SHELL))) as Hdata
    by (rewrite length_app, length_firstn, chars_length; simpl; lia).
  rewrite nth_write_at by (rewrite Hdata, Hlen; unfold frame_size; lia).
  rewrite Hdata.
  destruct (Nat.ltb_spec MAX_STRING L) as [H|_]; [lia|].
  destruct (Nat.ltb_spec (L + String.length SHELL) MAX_STRING) as [Hin|Hout].
  - destruct (Nat.ltb_spec MAX_STRING
                (L + S (Nat.min (MAX_STRING - L) (String.length SHELL))));
      [lia | exact Hold].
  - destruct (Nat.ltb_spec MAX_STRING
                (L + S (Nat.min (MAX_STRING - L) (String.length SHELL))));
      [|lia].
    rewrite app_nth2 by (rewrite length_firstn, chars_length; lia).
    rewrite length_firstn, chars_length.
    replace (MAX_STRING - L - Nat.min (MAX_STRING - L) (String.length SHELL))%nat
      with 0%nat by lia.
    reflexivity.
Qed.

(** X25.  Lines 191-192.  Likewise for [home_dir]: the terminator stays
    inside the array when [HOME=] and the inner home path are shorter than
    the array together, and lands in the byte after it otherwise. *)
Theorem home_terminator (junk : nat -> ascii) (dir : string) :
  spill (home_buffer junk dir) =
  if (String.length "HOME=" + String.length dir <? MAX_STRING)%nat
  then junk MAX_STRING else nul.
Proof.
  unfold spill, home_buffer.
  set (home_dir := strcpy (auto_array junk) "HOME=").
  assert (List.length home_dir = frame_size) as Hlen
    by (unfold home_dir, strcpy; now rewrite write_at_length, auto_array_length).
  assert (cstr home_dir = "HOME=") as Hhome.
  { apply strcpy_cstr; [apply c_string_check; reflexivity |].
    rewrite auto_array_length. unfold frame_size, MAX_STRING. simpl. lia. }
  assert (strlen home_dir = 5%nat) as Hstrlen
    by now rewrite strlen_cstr, Hhome.
  assert (nth MAX_STRING home_dir nul = junk MAX_STRING) as Hold.
  { unfold home_dir, strcpy. rewrite nth_write_at
      by (rewrite auto_array_length; unfold frame_size, MAX_STRING; simpl; lia).
    change (List.length (chars "HOME=" ++ [nul])) with 6%nat.
    change (MAX_STRING <? 0)%nat with false.
    change (MAX_STRING <? 0 + 6)%nat with false.
    apply auto_array_nth. unfold frame_size. lia. }
  rewrite Hstrlen.
  rewrite size_sub_fits by (exact MAX_STRING_size || (unfold MAX_STRING; lia)).
  unfold strncat. rewrite Hstrlen.
  change (String.length "HOME=") with 5%nat.
  set (n := String.length dir).
  assert (List.length (firstn (MAX_STRING - 5) (chars dir) ++ [nul])
          = S (Nat.min (MAX_STRING - 5) n)) as Hdata
    by (rewrite length_app, length_firstn, chars_length; cbn [List.length];
        lia).
  rewrite nth_write_at
    by (rewrite Hdata, Hlen; unfold frame_size, MAX_STRING; lia).
  rewrite Hdata.
  change (MAX_STRING <? 5)%nat with false.
  destruct (Nat.ltb_spec (5 + n) MAX_STRING) as [Hin|Hout].
  - destruct (Nat.ltb_spec MAX_STRING (5 + S (Nat.min (MAX_STRING - 5) n)));
      [unfold MAX_STRING in *; lia | exact Hold].
  - destruct (Nat.ltb_spec MAX_STRING (5 + S (Nat.min (MAX_STRING - 5) n)));
      [|unfold MAX_STRING in *; lia].
    rewrite app_nth2
      by (rewrite length_firstn, chars_length; unfold MAX_STRING in *; lia).
    rewrite length_firstn, chars_length.
    replace (MAX_STRING - 5 - Nat.min (MAX_STRING - 5) (String.length dir))%nat
      with 0%nat by (unfold MAX_STRING in *; lia).
    reflexivity.
Qed.

(** The byte [strncat] stores at the end is the terminator. *)
Lemma strncat_terminator (dst : buffer) (src : string) (n : nat) :
  (strncat_end dst src n < List.length dst)%nat ->
  nth (strncat_end dst src n) (strncat dst src n) nul = nul.
Proof.
  unfold strncat_end, strncat. intros Hroom.
  assert (List.length (firstn n (chars src) ++ [nul])
          = S (Nat.min n (String.length src))) as Hdata
    by (rewrite length_app, length_firstn, chars_length; cbn [List.length];
        lia).
  rewrite nth_write_at by (rewrite Hdata; lia). rewrite Hdata.
  destruct (Nat.ltb_spec (strlen dst + Nat.min n (String.length src))
              (strlen dst)); [lia|].
  destruct (Nat.ltb_spec (strlen dst + Nat.min n (String.length src))
              (strlen dst + S (Nat.min n (String.length src)))); [|lia].
  rewrite app_nth2 by (rewrite length_firstn, chars_length; lia).
  rewrite length_firstn, chars_length.
  replace (strlen dst + Nat.min n (String.length src) - strlen dst
           - Nat.min n (String.length src))%nat with 0%nat by lia.
  reflexivity.
Qed.

(** Where the jail root does not fit [shell] together with [SHELL], the
    terminator of line 136 falls on [chroot_dir[0]]: what lines 152 and
    158 hand to [chdir] and [chroot] is the empty string. *)
Lemma jail_path_overrun (w : world) (chroot_dir : buffer) :
  (String.length (cstr chroot_dir) < MAX_STRING)%nat ->
  ~ shell_fits (cstr chroot_dir) ->
  jail_path w chroot_dir = "".
Proof.
  unfold shell_fits, jail_path, after_shell. intros Hlen Hover.
  set (shell := strncpy (auto_array (w_junk w 1)) (cstr chroot_dir) MAX_STRING).
  assert (List.length shell = frame_size) as Hsize
    by (unfold shell, strncpy; now rewrite write_at_length, auto_array_length).
  assert (cstr shell = cstr chroot_dir) as Hshell.
  { apply strncpy_cstr; [apply cstr_c_string | lia |].
    rewrite auto_array_length. unfold frame_size. lia. }
  assert (strlen shell = String.length (cstr chroot_dir)) as Hstrlen
    by now rewrite strlen_cstr, Hshell.
  cbv zeta. rewrite Hstrlen.
  rewrite size_sub_fits by (exact MAX_STRING_size || lia).
  set (n := (MAX_STRING - String.length (cstr chroot_dir))%nat).
  assert (strncat_end shell SHELL n = MAX_STRING) as Hend
    by (unfold strncat_end; rewrite Hstrlen; unfold n; lia).
  rewrite Hend. rewrite Nat.ltb_irrefl.
  rewrite <- Hend at 1.
  rewrite strncat_terminator by (rewrite Hend, Hsize; unfold frame_size; lia).
  unfold write_at. destruct chroot_dir as [|c rest]; reflexivity.
Qed.

(** So, in the frame of the prescribed build, a run never gets to the
    shell from a root that does not fit, where [chdir] refuses the empty
    path, as it does with [ENOENT]: the runs that end in the shell are
    all runs from roots that fit. *)
Lemma shell_reached_from_fitting_root (w : world) (path : string)
    (argv : list string) (env : vector) (pw : passwd) (jail : string) :
  (forall p, w_chdir w p "" <> SysOk) ->
  c_string (pw_dir pw) ->
  ending w = Exec path argv env ->
  outer_record w = Some pw ->
  derived_root w CHROOT_LEVEL (pw_dir pw) = Some jail ->
  shell_fits jail.
Proof.
  intros Hposix Hc Hend Hout Hjail. unfold ending in Hend.
  destruct (run w) as [tr o] eqn:Hrun. cbn [snd] in Hend. subst o.
  apply exec_inversion in Hrun
    as (pw0 & cd & cnt & m & pw' & _ & _ & Hout0 & Hex & Hcnt & _ & _ & Hcd
        & _).
  assert (pw0 = pw) as -> by congruence.
  rewrite (derived_root_extract _ _ _ _ _ Hex Hcnt) in Hjail.
  injection Hjail as <-.
  assert (0 <= CHROOT_LEVEL) as Hlevel by (unfold CHROOT_LEVEL; lia).
  destruct (extract_fits _ _ _ _ _ Hlevel Hc Hex Hcnt) as (_ & Hlen & _).
  destruct (Nat.lt_ge_cases (String.length (cstr cd) + String.length SHELL)
              MAX_STRING) as [Hfit|Hover]; [exact Hfit|].
  exfalso. apply (Hposix (proc0 w)).
  rewrite <- (jail_path_overrun w cd Hlen); [exact Hcd|].
  unfold shell_fits. lia.
Qed.

(** ** The diagnostics *)

Lemma append_assoc (a b c : string) :
  ((a ++ b) ++ c = a ++ (b ++ c))%string.
Proof. induction a; simpl; [reflexivity | now rewrite IHa]. Qed.

(** A format that ends in a newline gives a text that ends in one. *)
Lemma fmt_line (parts : list string) (last : string) :
  fmt (parts ++ [last]) = (fmt parts ++ last)%string.
Proof.
  unfold fmt. induction parts as [|a parts IH]; [reflexivity|].
  destruct parts as [|b parts].
  - reflexivity.
  - change (String.concat "" ((a :: b :: parts) ++ [last]))
      with (a ++ String.concat "" ((b :: parts) ++ [last]))%string.
    rewrite IH.
    change (String.concat "" (a :: b :: parts))
      with (a ++ String.concat "" (b :: parts))%string.
    now rewrite append_assoc.
Qed.

(** X26.  Lines 76-86.  The two checks of the uids come in this order:
    a process whose effective uid is not 0 is told that the program needs
    to be setuid root, whatever its real uid; only with effective uid 0 is
    a real uid 0 told that the target user must not be root. *)
Theorem preflight_diagnostic (w : world) :
  w_euid w <> 0 \/ real_user w = 0 ->
  run w =
  ([Getuid; Geteuid;
    Fprintf (if w_euid w =? 0 then msg_root_user (w_argv0 w)
             else msg_not_setuid (w_argv0 w))],
   Exit 255).
Proof.
  intros H. unfold real_user in H. run_main.
  destruct (Z.eqb_spec (w_euid w) 0) as [He|He]; run_main.
  - destruct H as [H|H]; [contradiction|].
    rewrite H. reflexivity.
  - reflexivity.
Qed.

(** X27.  Every diagnostic of every run is written by one [fprintf] whose
    format begins with [%s: ] for [argv[0]] and ends with a newline: the
    text begins with the name the program was started under, a colon and a
    space, and ends with a newline. *)
Theorem diagnostics_name_the_program (w : world) (msg : string) :
  In (Fprintf msg) (trace w) ->
  (exists rest, msg = (w_argv0 w ++ ": " ++ rest)%string) /\
  (exists body, msg = (body ++ newline)%string).
Proof.
  unfold trace. destruct (run w) as [tr o] eqn:Hrun. cbn [fst].
  revert Hrun. run_main. repeat branch.
  all: cbn [app]; intros [= <- <-] Hin.
  all: cbn [In] in Hin;
    repeat match type of Hin with
           | _ \/ _ => destruct Hin as [Hin|Hin]
           end; try discriminate Hin; try contradiction.
  all: injection Hin as <-.
  all: split; [eexists; reflexivity|].
  all: eexists.
  all: first
    [ apply (fmt_line [_; _])
    | apply (fmt_line [_; _; _])
    | apply (fmt_line [_; _; _; _])
    | apply (fmt_line [_; _; _; _; _])
    | apply (fmt_line [_; _; _; _; _; _])
    | apply (fmt_line [_; _; _; _; _; _; _])
    | apply (fmt_line [_; _; _; _; _; _; _; _]) ].
Qed.

(** ** Runs of further examples *)

(** The checks up to line 147 on a world made with [joe_with], by
    evaluation. *)
Ltac joe_checks :=
  split; [reflexivity|]; split; [discriminate|]; split; [reflexivity|];
  split;
  [ exists 2; split; [vm_compute; reflexivity | discriminate]
  | exists 33261; split; vm_compute; reflexivity ].

Ltac joe_enters :=
  split; [joe_checks|]; split; reflexivity.

Lemma derived_root_is_prefix_witness :
  is_prefix "/home/chroot" "/home/chroot/home/joe" /\
  (String.length "/home/chroot" < MAX_STRING)%nat /\
  separators "/home/chroot" = Z.to_nat 2 /\
  c_string "/home/chroot".
Proof.
  apply (derived_root_is_prefix joe_login 2 "/home/chroot/home/joe"
           "/home/chroot").
  - lia.
  - apply c_string_check. reflexivity.
  - vm_compute. reflexivity.
Defined.

Lemma derivation_inverts_join_witness :
  derived_root joe_login 2 ("/home/chroot" ++ String slash "home/joe")
  = Some "/home/chroot".
Proof.
  apply (derivation_inverts_join joe_login 2 "/home/chroot" "home/joe").
  - lia.
  - apply c_string_check. reflexivity.
  - apply c_string_check. reflexivity.
  - reflexivity.
  - vm_compute. lia.
Defined.

Lemma shell_path_shape_witness :
  shell_path joe_login joe_chroot_dir =
    (cstr joe_chroot_dir
     ++ cut (MAX_STRING - String.length (cstr joe_chroot_dir)) SHELL)%string /\
  (String.length (shell_path joe_login joe_chroot_dir) <= MAX_STRING)%nat.
Proof.
  apply (shell_path_shape joe_login joe_chroot_dir). vm_compute. lia.
Defined.

Lemma home_entry_shape_witness :
  home_entry joe_login "/home/joe"
  = ("HOME=" ++ cut (MAX_STRING - 5) "/home/joe")%string /\
  (String.length (home_entry joe_login "/home/joe") <= MAX_STRING)%nat.
Proof.
  apply (home_entry_shape joe_login "/home/joe").
  apply c_string_check. reflexivity.
Defined.

Lemma real_user_round_trip_witness :
  uid_of_int (int_of_uid 4294967294) = 4294967294 /\
  (int_of_uid 4294967294 = 0 <-> 4294967294 = 0) /\
  (2 ^ 31 <= 4294967294 -> int_of_uid 4294967294 < 0).
Proof.
  apply (real_user_round_trip 4294967294). unfold uid_t. cbn. lia.
Defined.

Lemma unknown_user_refused_witness :
  run unknown_user =
  ([Getuid; Geteuid; Getpwuid 1000;
    Fprintf (msg_no_user "-chrlogin" 1000)],
   Exit 255).
Proof.
  apply (unknown_user_refused unknown_user).
  - reflexivity.
  - discriminate.
  - reflexivity.
Defined.

Lemma short_home_refused_witness :
  run short_home =
  (home_checks short_home joe_jail ++
   [Fprintf (msg_too_short "-chrlogin" "/home/joe" CHROOT_LEVEL)],
   Exit 255).
Proof.
  apply (short_home_refused short_home joe_jail).
  - reflexivity.
  - discriminate.
  - reflexivity.
  - vm_compute. reflexivity.
Defined.

Lemma missing_shell_refused_witness :
  run no_shell =
  (checked_calls no_shell joe_host joe_chroot_dir ++
   [Fprintf (msg_no_shell "-chrlogin" "/home/chroot/bin/bash"
               "No such file or directory")],
   Exit 255).
Proof.
  apply (missing_shell_refused no_shell joe_host joe_chroot_dir 2
           "No such file or directory").
  - reflexivity.
  - discriminate.
  - reflexivity.
  - vm_compute. reflexivity.
  - discriminate.
  - vm_compute. reflexivity.
Defined.

Lemma irregular_shell_refused_witness :
  run shell_is_directory =
  (checked_calls shell_is_directory joe_host joe_chroot_dir ++
   [Fprintf (msg_shell_not_regular "-chrlogin" "/home/chroot/bin/bash")],
   Exit 255).
Proof.
  apply (irregular_shell_refused shell_is_directory joe_host joe_chroot_dir 2
           16877).
  - reflexivity.
  - discriminate.
  - reflexivity.
  - vm_compute. reflexivity.
  - discriminate.
  - reflexivity.
  - reflexivity.
Defined.

Lemma closed_jail_refused_witness :
  run jail_closed =
  (checked_calls jail_closed joe_host joe_chroot_dir ++
   [Chdir "/home/chroot";
    Fprintf (msg_chdir_root "-chrlogin" "/home/chroot" "Permission denied")],
   Exit 255).
Proof.
  apply (closed_jail_refused jail_closed joe_host joe_chroot_dir
           "Permission denied").
  - joe_checks.
  - unfold shell_fits. vm_compute. lia.
  - vm_compute. reflexivity.
Defined.

Lemma failed_chroot_refused_witness :
  run chroot_refused =
  (checked_calls chroot_refused joe_host joe_chroot_dir ++
   [Chdir "/home/chroot"; Chroot "/home/chroot";
    Fprintf (msg_chroot "-chrlogin" "/home/chroot" "Operation not permitted")],
   Exit 255).
Proof.
  apply (failed_chroot_refused chroot_refused joe_host joe_chroot_dir
           "Operation not permitted").
  - joe_checks.
  - unfold shell_fits. vm_compute. lia.
  - reflexivity.
  - reflexivity.
Defined.

Lemma unknown_in_jail_refused_witness :
  run no_jail_record =
  (jail_calls no_jail_record joe_host joe_chroot_dir ++
   [Fprintf (msg_no_jail_user "-chrlogin" 1000)],
   Exit 255).
Proof.
  apply (unknown_in_jail_refused no_jail_record joe_host joe_chroot_dir).
  - joe_enters.
  - unfold shell_fits. vm_compute. lia.
  - vm_compute. reflexivity.
Defined.

Lemma missing_inner_home_refused_witness :
  run no_jail_home =
  (jail_calls no_jail_home joe_host joe_chroot_dir ++
   [Chdir "/home/joe";
    Fprintf (msg_chdir_home "-chrlogin" "/home/joe" 1000
               "No such file or directory")],
   Exit 255).
Proof.
  apply (missing_inner_home_refused no_jail_home joe_host joe_chroot_dir
           joe_jail "No such file or directory").
  - joe_enters.
  - unfold shell_fits. vm_compute. lia.
  - vm_compute. reflexivity.
  - vm_compute. reflexivity.
Defined.

Lemma inner_home_leads_to_exec_witness :
  run joe_with_args =
  (jail_calls joe_with_args joe_host joe_chroot_dir ++
   [Chdir "/home/joe"; Putenv "HOME=/home/joe";
    Execve SHELL ["/bin/bash"; "-l"] ["PATH=/bin"; "HOME=/home/joe"]],
   Exec SHELL ["/bin/bash"; "-l"] ["PATH=/bin"; "HOME=/home/joe"]).
Proof.
  apply (inner_home_leads_to_exec joe_with_args joe_host joe_chroot_dir
           joe_jail).
  - joe_enters.
  - unfold shell_fits. vm_compute. lia.
  - vm_compute. reflexivity.
  - reflexivity.
Defined.

Lemma exit_status_law_witness :
  (255 = 255 /\
   (exists msg, last_call (trace unknown_user) = Some (Fprintf msg)) /\
   existsb is_execve (trace unknown_user) = false) \/
  (255 = 0 /\
   exists argv env,
     last_call (trace unknown_user) = Some (Execve SHELL argv env)).
Proof.
  apply (exit_status_law unknown_user (trace unknown_user) 255).
  vm_compute. reflexivity.
Defined.

Lemma chroot_is_guarded_witness :
  exists pw chroot_dir,
    passes_checks joe_with_args pw chroot_dir /\
    w_chdir joe_with_args (proc0 joe_with_args) "/home/chroot" = SysOk /\
    (shell_fits (cstr chroot_dir) -> "/home/chroot" = cstr chroot_dir).
Proof.
  apply (chroot_is_guarded joe_with_args "/home/chroot").
  vm_compute. do 6 right. left. reflexivity.
Defined.

Lemma inherited_environment_without_HOME_witness :
  ["PATH=/bin"] = w_envp no_home_inherited /\
  getenv_in ["PATH=/bin"] "HOME" = None.
Proof.
  apply (inherited_environment_without_HOME no_home_inherited SHELL
           ["/bin/bash"] ["PATH=/bin"]).
  - vm_compute. reflexivity.
  - reflexivity.
Defined.

Lemma environ_holds_HOME_witness :
  getenv_in (final_environ no_home_inherited) "HOME"
  = Some (cut (MAX_STRING - 5) "/home/joe").
Proof.
  apply (environ_holds_HOME no_home_inherited joe_host joe_chroot_dir
           joe_jail).
  - joe_enters.
  - unfold shell_fits. vm_compute. lia.
  - vm_compute. reflexivity.
  - reflexivity.
  - apply c_string_check. reflexivity.
Defined.

Lemma shell_process_witness :
  let p := final_proc joe_login in
  let at_setuid := rooted_at (moved_to (proc0 joe_login) "/home/chroot")
                     "/home/chroot" in
  p_root p = "/home/chroot" /\ p_cwd p = "/home/joe" /\
  (w_setuid joe_login at_setuid (target_uid joe_login) = true ->
   p_ruid p = target_uid joe_login /\ p_euid p = target_uid joe_login) /\
  (w_setuid joe_login at_setuid (target_uid joe_login) = false ->
   p_ruid p = w_ruid joe_login /\ p_euid p = 0).
Proof.
  apply (shell_process joe_login joe_host joe_chroot_dir joe_jail).
  - joe_enters.
  - unfold shell_fits. vm_compute. lia.
  - vm_compute. reflexivity.
  - reflexivity.
Defined.

Lemma missing_home_not_fatal_witness :
  let named := cstr (copy_home (w_junk home_missing 2) (pw_dir joe_host)) in
  exists before after,
    trace home_missing =
      before ++
      [Stat named;
       Fprintf (msg_no_home "-chrlogin" named "No such file or directory");
       Stat (shell_path home_missing joe_chroot_dir);
       Chdir (cstr joe_chroot_dir)] ++ after /\
    forallb (fun e => negb (transition e)) before = true.
Proof.
  apply (missing_home_not_fatal home_missing joe_host joe_chroot_dir
           "No such file or directory").
  - joe_checks.
  - unfold shell_fits. vm_compute. lia.
  - vm_compute. reflexivity.
Defined.

Lemma S_ISREG_ignores_permissions_witness :
  S_ISREG (Z.lxor 33261 73) = S_ISREG 33261.
Proof.
  apply (S_ISREG_ignores_permissions 33261 73). unfold S_IALLUGO. lia.
Defined.

Lemma shell_terminator_witness :
  spill (shell_buffer (w_junk joe_login 1) joe_chroot_dir) =
  if (String.length (cstr joe_chroot_dir) + String.length SHELL
      <? MAX_STRING)%nat
  then w_junk joe_login 1 MAX_STRING else nul.
Proof.
  apply (shell_terminator (w_junk joe_login 1) joe_chroot_dir).
  vm_compute. lia.
Defined.

Lemma preflight_diagnostic_witness :
  run root_invokes =
  ([Getuid; Geteuid; Fprintf (msg_root_user "chrlogin")], Exit 255).
Proof.
  apply (preflight_diagnostic root_invokes). right. reflexivity.
Defined.

Lemma diagnostics_name_the_program_witness :
  (exists rest,
     msg_root_user "chrlogin" = (w_argv0 root_invokes ++ ": " ++ rest)%string) /\
  (exists body, msg_root_user "chrlogin" = (body ++ newline)%string).
Proof.
  apply (diagnostics_name_the_program root_invokes (msg_root_user "chrlogin")).
  vm_compute. do 2 right. left. reflexivity.
Defined.
